(** * Provider version gate of the secrets-store CSI driver

    A shallow embedding of [pkg/version/version.go] and a verification of
    its behaviour: parsing of the [provider=version] configuration string
    into the minimum-version map, normalisation of version strings, and
    the compatibility verdict obtained from the provider's own
    [--version] report.

    Go strings are byte sequences; they are embedded as [string], whose
    characters are the 256 byte values.  Go's multiple results
    [(value, error)] are embedded as pairs whose second component is an
    [option]: [None] is Go's [nil] error. *)

From Stdlib Require Import ZArith Ascii String.
From stdpp Require Import base gmap strings list.

Local Open Scope Z_scope.

(** ** The [strings] package

    The functions of Go's standard library that the program calls, on
    byte strings.  Every separator the program passes is a one-byte
    string, so separators are bytes here. *)

Module strings.

(** [strings.HasPrefix(s, prefix)]. *)
Fixpoint HasPrefix (s prefix : string) {struct prefix} : bool :=
  match prefix, s with
  | EmptyString, _ => true
  | String _ _, EmptyString => false
  | String p prefix', String c s' =>
      if decide (c = p) then HasPrefix s' prefix' else false
  end.

(** [s[n:]] for [n <= len(s)]. *)
Fixpoint from (n : nat) (s : string) : string :=
  match n, s with
  | O, _ => s
  | S n', String _ s' => from n' s'
  | S _, EmptyString => EmptyString
  end.

(** [strings.TrimPrefix(s, prefix)]: [s] without the leading [prefix],
    or [s] itself when it does not start with [prefix]. *)
Definition TrimPrefix (s prefix : string) : string :=
  if HasPrefix s prefix then from (String.length prefix) s else s.

(** The split of [s] around the first occurrence of the byte [sep]
    ([strings.Index] followed by the two slices), if there is one. *)
Fixpoint Cut (s : string) (sep : ascii) : option (string * string) :=
  match s with
  | EmptyString => None
  | String c s' =>
      if decide (c = sep) then Some (EmptyString, s')
      else match Cut s' sep with
           | Some (a, b) => Some (String c a, b)
           | None => None
           end
  end.

(** [strings.Split(s, sep)]: the substrings between the occurrences of
    [sep]; one more element than there are separators, so the empty
    string splits into one empty substring. *)
Fixpoint Split (s : string) (sep : ascii) : list string :=
  match s with
  | EmptyString => [EmptyString]
  | String c s' =>
      if decide (c = sep) then EmptyString :: Split s' sep
      else match Split s' sep with
           | h :: t => String c h :: t
           | [] => [String c EmptyString]
           end
  end.

(** [strings.SplitN(s, sep, n)] for [n >= 0]: at most [n] substrings,
    the last one being the unsplit remainder. *)
Fixpoint SplitN (s : string) (sep : ascii) (n : nat) : list string :=
  match n with
  | O => []
  | S O => [s]
  | S n' =>
      match Cut s sep with
      | Some (a, b) => a :: SplitN b sep n'
      | None => [s]
      end
  end.

(** The six ASCII bytes for which [unicode.IsSpace] holds:
    tab, line feed, vertical tab, form feed, carriage return, space. *)
Definition asciiSpace (c : ascii) : bool :=
  let n := nat_of_ascii c in
  ((9 <=? n) && (n <=? 13) || (n =? 32))%nat.

(** The two-byte UTF-8 encodings of white space: U+0085 and U+00A0. *)
Definition space2 (c0 c1 : ascii) : bool :=
  let a := nat_of_ascii c0 in
  let b := nat_of_ascii c1 in
  ((a =? 194) && ((b =? 133) || (b =? 160)))%nat.

(** The three-byte UTF-8 encodings of white space: U+1680,
    U+2000..U+200A, U+2028, U+2029, U+202F, U+205F and U+3000. *)
Definition space3 (c0 c1 c2 : ascii) : bool :=
  let a := nat_of_ascii c0 in
  let b := nat_of_ascii c1 in
  let c := nat_of_ascii c2 in
  ((a =? 225) && (b =? 154) && (c =? 128)
   || (a =? 226) && (b =? 128)
        && ((128 <=? c) && (c <=? 138) || (c =? 168) || (c =? 169)
            || (c =? 175))
   || (a =? 226) && (b =? 129) && (c =? 159)
   || (a =? 227) && (b =? 128) && (c =? 128))%nat.

(** [strings.TrimLeftFunc(s, unicode.IsSpace)]: the leading white
    space runes are decoded from their UTF-8 encodings and dropped. *)
Fixpoint TrimLeftSpace (s : string) : string :=
  match s with
  | EmptyString => EmptyString
  | String c0 s0 =>
      if asciiSpace c0 then TrimLeftSpace s0
      else match s0 with
           | EmptyString => s
           | String c1 s1 =>
               if space2 c0 c1 then TrimLeftSpace s1
               else match s1 with
                    | EmptyString => s
                    | String c2 s2 =>
                        if space3 c0 c1 c2 then TrimLeftSpace s2 else s
                    end
           end
  end.

(** A string is white space only when trimming it on the left leaves
    nothing. *)
Definition onlySpace (s : string) : bool :=
  match TrimLeftSpace s with EmptyString => true | String _ _ => false end.

(** [strings.TrimRightFunc(s, unicode.IsSpace)]: the longest suffix
    made of white space runes is dropped. *)
Fixpoint TrimRightSpace (s : string) : string :=
  match s with
  | EmptyString => EmptyString
  | String c s' => if onlySpace s then EmptyString else String c (TrimRightSpace s')
  end.

(** [strings.TrimSpace(s)]. *)
Definition TrimSpace (s : string) : string :=
  TrimRightSpace (TrimLeftSpace s).

End strings.

(** ** The semantic-version library

    Modelled from the spec: [semver.Make] and [Version.Compare] belong to
    the package [github.com/blang/semver], which [version.go] imports and
    which is not part of the sources.  The spec asks for the standard
    grammar, [major.minor.patch] with optional pre-release and build
    metadata, and for the standard precedence: numeric major, minor and
    patch, then the pre-release identifiers.  The model follows the
    package's parser step by step, the order of its checks included. *)

Module semver.

Inductive part := major | minor | patch | prerelease | buildmeta.

(** The two failures of [strconv.ParseUint]. *)
Inductive numError := ErrSyntax | ErrRange.

Inductive error :=
| ErrEmptyVersion                       (* Version string empty *)
| ErrNoElements                         (* No Major.Minor.Patch elements found *)
| ErrInvalidChar (p : part) (s : string)   (* Invalid character(s) found in ... *)
| ErrLeadingZeroes (p : part) (s : string) (* ... must not contain leading zeroes *)
| ErrParseUint (e : numError) (s : string) (* strconv.ParseUint: parsing s: ... *)
| ErrEmptyPrerelease                    (* Prerelease is empty *)
| ErrEmptyBuild.                        (* Build meta data is empty *)

(** Results of the fallible functions of the package. *)
Inductive res (A : Type) :=
| ok (a : A)
| fail (e : error).
Arguments ok {A} a.
Arguments fail {A} e.

Definition bind {A B : Type} (x : res A) (k : A → res B) : res B :=
  match x with
  | ok a => k a
  | fail e => fail e
  end.

Notation "'let*' x ':=' e 'in' k" := (bind e (fun x => k))
  (at level 10, x name, e at level 100, k at level 200, only parsing).

Record PRVersion := {
  VersionStr : string;
  VersionNum : Z;
  IsNum : bool
}.

Record Version := {
  Major : Z;
  Minor : Z;
  Patch : Z;
  Pre : list PRVersion;
  Build : list string
}.

Definition numbers : string := "0123456789".
Definition alphas : string :=
  "abcdefghijklmnopqrstuvwxyzABCDEFGHIJKLMNOPQRSTUVWXYZ-".
Definition alphanum : string := alphas +:+ numbers.

(** [strings.ContainsRune(set, r)] for a byte of the subject string;
    the sets are ASCII, so a byte of a longer encoding is in none. *)
Fixpoint ContainsByte (set : string) (c : ascii) : bool :=
  match set with
  | EmptyString => false
  | String x set' => if decide (x = c) then true else ContainsByte set' c
  end.

Fixpoint containsOnly (s set : string) : bool :=
  match s with
  | EmptyString => true
  | String c s' => ContainsByte set c && containsOnly s' set
  end.

Definition hasLeadingZeroes (s : string) : bool :=
  match s with
  | String "0" (String _ _) => true
  | _ => false
  end.

Definition digit (c : ascii) : option Z :=
  let n := Z.of_nat (nat_of_ascii c) in
  if (48 <=? n) && (n <=? 57) then Some (n - 48) else None.

Fixpoint digits (acc : Z) (s : string) : option Z :=
  match s with
  | EmptyString => Some acc
  | String c s' =>
      match digit c with
      | Some d => digits (acc * 10 + d) s'
      | None => None
      end
  end.

(** [strconv.ParseUint(s, 10, 64)]. *)
Definition ParseUint (s : string) : res Z :=
  match s with
  | EmptyString => fail (ErrParseUint ErrSyntax s)
  | String _ _ =>
      match digits 0 s with
      | None => fail (ErrParseUint ErrSyntax s)
      | Some n => if n <? 2 ^ 64 then ok n else fail (ErrParseUint ErrRange s)
      end
  end.

(** The three checks made on each of major, minor and patch. *)
Definition number (p : part) (s : string) : res Z :=
  if negb (containsOnly s numbers) then fail (ErrInvalidChar p s)
  else if hasLeadingZeroes s then fail (ErrLeadingZeroes p s)
  else ParseUint s.

Definition NewPRVersion (s : string) : res PRVersion :=
  match s with
  | EmptyString => fail ErrEmptyPrerelease
  | String _ _ =>
      if containsOnly s numbers then
        if hasLeadingZeroes s then fail (ErrLeadingZeroes prerelease s)
        else
          let* num := ParseUint s in
          ok {| VersionStr := ""; VersionNum := num; IsNum := true |}
      else if containsOnly s alphanum then
        ok {| VersionStr := s; VersionNum := 0; IsNum := false |}
      else fail (ErrInvalidChar prerelease s)
  end.

Definition buildIdent (s : string) : res string :=
  match s with
  | EmptyString => fail ErrEmptyBuild
  | String _ _ =>
      if containsOnly s alphanum then ok s
      else fail (ErrInvalidChar buildmeta s)
  end.

(** A loop that converts each element and stops at the first error. *)
Fixpoint each {A B : Type} (f : A → res B) (l : list A) : res (list B) :=
  match l with
  | [] => ok []
  | x :: l' =>
      let* y := f x in
      let* ys := each f l' in
      ok (y :: ys)
  end.

(** [s[:i]] and [strings.Split(s[i+1:], ".")] for the first index [i]
    of [sep] in [s]; [s] and no identifiers when [sep] does not occur. *)
Definition section (s : string) (sep : ascii) : string * list string :=
  match strings.Cut s sep with
  | Some (a, b) => (a, strings.Split b ".")
  | None => (s, [])
  end.

Definition Parse (s : string) : res Version :=
  match s with
  | EmptyString => fail ErrEmptyVersion
  | String _ _ =>
      match strings.SplitN s "." 3 with
      | [p0; p1; p2] =>
          let* vmajor := number major p0 in
          let* vminor := number minor p1 in
          let '(patchStr, build) := section p2 "+" in
          let '(patchStr, pre) := section patchStr "-" in
          let* vpatch := number patch patchStr in
          let* vpre := each NewPRVersion pre in
          let* vbuild := each buildIdent build in
          ok {| Major := vmajor; Minor := vminor; Patch := vpatch;
                Pre := vpre; Build := vbuild |}
      | _ => fail ErrNoElements
      end
  end.

(** [Make] is an alias of [Parse]. *)
Definition Make (s : string) : res Version := Parse s.

(** Comparison of two pre-release identifiers: numeric ones are below
    alphanumeric ones, numbers compare by value and strings bytewise. *)
Definition PRCompare (v o : PRVersion) : Z :=
  match IsNum v, IsNum o with
  | true, false => -1
  | false, true => 1
  | true, true =>
      if VersionNum v =? VersionNum o then 0
      else if VersionNum v >? VersionNum o then 1 else -1
  | false, false =>
      match String.compare (VersionStr v) (VersionStr o) with
      | Eq => 0
      | Gt => 1
      | Lt => -1
      end
  end.

(** The loop over the common indices of the two pre-release lists and
    the comparison of the lengths that follows it. *)
Fixpoint comparePre (v o : list PRVersion) : Z :=
  match v, o with
  | [], [] => 0
  | [], _ :: _ => -1
  | _ :: _, [] => 1
  | x :: v', y :: o' =>
      let comp := PRCompare x y in
      if comp =? 0 then comparePre v' o'
      else if comp =? 1 then 1 else -1
  end.

(** [v.Compare(o)]: -1, 0 or 1. *)
Definition Compare (v o : Version) : Z :=
  if negb (Major v =? Major o) then
    if Major v >? Major o then 1 else -1
  else if negb (Minor v =? Minor o) then
    if Minor v >? Minor o then 1 else -1
  else if negb (Patch v =? Patch o) then
    if Patch v >? Patch o then 1 else -1
  else
    match Pre v, Pre o with
    | [], [] => 0
    | [], _ :: _ => 1
    | _ :: _, [] => -1
    | _ :: _, _ :: _ => comparePre (Pre v) (Pre o)
    end.

End semver.

(** ** Package [version] *)

Module version.

(** providerVersion holds current provider version. *)
Record providerVersion := {
  Version : string;          (* json:"version" *)
  BuildDate : string;        (* json:"buildDate" *)
  MinDriverVersion : string  (* json:"minDriverVersion" *)
}.

(** The errors the package returns.  Those it builds with [fmt.Errorf]
    carry the arguments of the format string; an error of the semver
    package that is returned as it is keeps its identity. *)
Inductive error :=
| Semver (err : semver.error)
    (* the error of semver.Make, returned as it is *)
| ErrFormat (pv : list string)
    (* min provider version not defined in expected format, got %+v *)
| ErrEmpty (provider version : string)
    (* min provider version not defined in expected format
       provider=version, got provider %s version %s *)
| ErrDuplicate (provider v version : string)
    (* duplicate versions defined for %s provider, versions: [%s, %s] *)
| ErrNotSemver (provider version : string) (err : semver.error)
    (* minimum %s provider version %s is not a valid semver, error %+v *)
| ErrRun (providerName err stderr : string)
    (* error getting current provider version for %s, err: %v, output: %v *)
| ErrUnmarshal (err : string).
    (* error unmarshalling provider version %v *)

Definition normalizeVersion (version : string) : string :=
  strings.TrimPrefix version "v".

Definition isValidSemver (version : string) : option semver.error :=
  match semver.Make version with
  | semver.ok _ => None
  | semver.fail err => Some err
  end.

Definition isProviderCompatible (currVersion minVersion : string)
  : bool * option error :=
  match semver.Make currVersion with
  | semver.fail err => (false, Some (Semver err))
  | semver.ok currV =>
      match semver.Make minVersion with
      | semver.fail err => (false, Some (Semver err))
      | semver.ok minV => (semver.Compare currV minV >=? 0, None)
      end
  end.

(** The body of the loop of [GetMinimumProviderVersions] for the
    element [p], entered with the map [providerVersionMap]: either the
    map with the new entry and no error, and the loop goes on, or the
    map as it was and the error with which the function returns. *)
Definition entry (providerVersionMap : gmap string string) (p : string)
  : gmap string string * option error :=
  let p := strings.TrimSpace p in
  let pv := strings.Split p "=" in
  match pv with
  | [pv0; pv1] =>
      let provider := strings.TrimSpace pv0 in
      let version := strings.TrimSpace pv1 in
      if (String.length provider =? 0)%nat || (String.length version =? 0)%nat
      then (providerVersionMap, Some (ErrEmpty provider version))
      else
        match providerVersionMap !! provider with
        | Some v => (providerVersionMap, Some (ErrDuplicate provider v version))
        | None =>
            match isValidSemver version with
            | Some err =>
                (providerVersionMap, Some (ErrNotSemver provider version err))
            | None => (<[provider := version]> providerVersionMap, None)
            end
        end
  | _ => (providerVersionMap, Some (ErrFormat pv))
  end.

(** The loop [for _, p := range providers]; the first error ends it. *)
Fixpoint entries (providerVersionMap : gmap string string)
    (providers : list string) : gmap string string * option error :=
  match providers with
  | [] => (providerVersionMap, None)
  | p :: providers' =>
      match entry providerVersionMap p with
      | (providerVersionMap', None) => entries providerVersionMap' providers'
      | (providerVersionMap', Some err) => (providerVersionMap', Some err)
      end
  end.

(** GetMinimumProviderVersions creates a map with provider name and
    minimum version supported with this driver.  (The debug log line
    before the final return has no effect on the results.) *)
Definition GetMinimumProviderVersions (minProviderVersions : string)
  : gmap string string * option error :=
  let providerVersionMap : gmap string string := ∅ in
  match minProviderVersions with
  | EmptyString => (providerVersionMap, None)
  | String _ _ =>
      let providers := strings.Split minProviderVersions "," in
      entries providerVersionMap providers
  end.

(** What [cmd.Run] leaves behind: its error, if any, and the contents
    of the two buffers the command wrote to. *)
Record ran := {
  runErr : option string;
  stdout : string;
  stderr : string
}.

(** What a JSON document assigns to the three fields of
    [providerVersion]; members of other names are ignored. *)
Record document := {
  docVersion : option string;
  docBuildDate : option string;
  docMinDriverVersion : option string
}.

Inductive decoded :=
| Invalid (err : string)
| Object (d : document).

Section Probe.

(** The world outside the process.  [Run ctx name args] stands for
    [exec.CommandContext(ctx, name, args...)] followed by [cmd.Run()]
    with both output buffers attached; a context that is cancelled
    or past its deadline shows as an error of the run.  [decode] is
    the reading of a byte string as a JSON document by
    [encoding/json]. *)
Variable context : Type.
Variable Run : context → string → list string → ran.
Variable decode : string → decoded.

(** [json.Unmarshal(data, &pv)]: the fields the document assigns are
    stored, the others keep their value. *)
Definition Unmarshal (data : string) (pv : providerVersion)
  : providerVersion * option string :=
  match decode data with
  | Invalid err => (pv, Some err)
  | Object d =>
      ({| Version := default (Version pv) (docVersion d);
          BuildDate := default (BuildDate pv) (docBuildDate d);
          MinDriverVersion :=
            default (MinDriverVersion pv) (docMinDriverVersion d) |},
       None)
  end.

Definition getProviderVersion (ctx : context) (providerName : string)
  : string * option error :=
  let cmd := Run ctx providerName ["--version"] in
  match runErr cmd with
  | Some err => ("", Some (ErrRun providerName err (stderr cmd)))
  | None =>
      let pv := {| Version := ""; BuildDate := ""; MinDriverVersion := "" |} in
      match Unmarshal (stdout cmd) pv with
      | (_, Some err) => ("", Some (ErrUnmarshal err))
      | (pv, None) => (Version pv, None)
      end
  end.

(** IsProviderCompatible checks if the provider version is compatible
    with current driver version. *)
Definition IsProviderCompatible (ctx : context)
    (provider minProviderVersion : string) : bool * option error :=
  match getProviderVersion ctx provider with
  | (_, Some err) => (false, Some err)
  | (currProviderVersion, None) =>
      isProviderCompatible (normalizeVersion currProviderVersion)
                           (normalizeVersion minProviderVersion)
  end.

End Probe.

Arguments Unmarshal decode data pv : assert.
Arguments getProviderVersion {context} Run decode ctx providerName.
Arguments IsProviderCompatible {context} Run decode ctx provider
  minProviderVersion.

End version.

(** ** Notions of the specification *)

(** Every byte of [s] satisfies [P]. *)
Fixpoint allBytes (P : ascii → bool) (s : string) : bool :=
  match s with
  | EmptyString => true
  | String c s' => P c && allBytes P s'
  end.

(** The bytes that occur in the encodings of white space: the ASCII
    white space and bytes outside ASCII. *)
Definition spaceByte (c : ascii) : bool :=
  strings.asciiSpace c || (128 <=? nat_of_ascii c)%nat.

(** The bytes of a valid version string: letters, digits, the hyphen,
    the dot and the plus sign. *)
Definition versionBytes : string := semver.alphanum +:+ ".+".

(** The error kinds of the specification, and the kind of each error
    the package returns. *)
Inductive kind :=
| ProcessError
| DecodeError
| InvalidSemverError
| MalformedEntryError
| DuplicateProviderError.

Definition kindOf (err : version.error) : kind :=
  match err with
  | version.Semver _ => InvalidSemverError
  | version.ErrFormat _ => MalformedEntryError
  | version.ErrEmpty _ _ => MalformedEntryError
  | version.ErrDuplicate _ _ _ => DuplicateProviderError
  | version.ErrNotSemver _ _ _ => InvalidSemverError
  | version.ErrRun _ _ _ => ProcessError
  | version.ErrUnmarshal _ => DecodeError
  end.

(** The specification's reading of a pair: the pair, trimmed, is split
    on its first equals sign and the two parts are trimmed. *)
Definition tokens (p : string) : option (string * string) :=
  match strings.Cut (strings.TrimSpace p) "=" with
  | Some (a, b) => Some (strings.TrimSpace a, strings.TrimSpace b)
  | None => None
  end.

(** A pair splits on its first equals sign when it has one and neither
    token is empty. *)
Definition splitsOnFirst (p : string) : Prop :=
  ∃ provider version,
    tokens p = Some (provider, version) ∧ provider ≠ "" ∧ version ≠ "".

(** The program's reading of a pair: the pair, trimmed, has exactly one
    equals sign, and the two parts around it are trimmed. *)
Definition fields (p : string) : option (string * string) :=
  match strings.Split (strings.TrimSpace p) "=" with
  | [a; b] => Some (strings.TrimSpace a, strings.TrimSpace b)
  | _ => None
  end.

(** A pair is well formed when splitting it on the equals sign gives
    exactly two tokens and neither is empty. *)
Definition wellFormed (p : string) : Prop :=
  ∃ provider version,
    fields p = Some (provider, version) ∧ provider ≠ "" ∧ version ≠ "".

(** The provider names of the pairs that have the form
    [provider=version]. *)
Definition providers (pairs : list string) : list string :=
  (omap fields pairs).*1.

#[global] Instance kind_eq_dec : EqDecision kind.
Proof. solve_decision. Defined.

(** The violations of the specification: the pair [p], which comes
    after the pairs [before], is malformed when it does not give two
    non-empty tokens; otherwise it is a duplicate when its provider is
    that of one of the pairs before it, and it is invalid semver when
    the parser of versions rejects its version token.  A pair can be
    both. *)
Definition violates (before : list string) (p : string) (k : kind) : bool :=
  match fields p with
  | None => bool_decide (k = MalformedEntryError)
  | Some (provider, version) =>
      if decide (provider = "" ∨ version = "")
      then bool_decide (k = MalformedEntryError)
      else
        match k with
        | DuplicateProviderError => bool_decide (provider ∈ providers before)
        | InvalidSemverError =>
            match semver.Make version with
            | semver.ok _ => false
            | semver.fail _ => true
            end
        | _ => false
        end
  end.

(** The pairs of a configuration string: the parts between its commas;
    the empty string has no pair. *)
Definition pairsOf (s : string) : list string :=
  match s with
  | EmptyString => []
  | String _ _ => strings.Split s ","
  end.

(** A pair the registry can take: of the form [provider=version], with
    a provider that is not empty and a version that is a version. *)
Definition validPair (p : string) : Prop :=
  ∃ provider version,
    fields p = Some (provider, version) ∧ provider ≠ ""
    ∧ version.isValidSemver version = None.

(** One step of a lexicographic comparison: the comparison of two
    numbers decides, and the rest is looked at when they are equal. *)
Definition lexstep (c : comparison) (rest : Z) : Z :=
  match c with
  | Lt => -1
  | Eq => rest
  | Gt => 1
  end.

(** The last step of [semver.Compare], on the two pre-release lists. *)
Definition comparePreField (v o : list semver.PRVersion) : Z :=
  match v, o with
  | [], [] => 0
  | [], _ :: _ => 1
  | _ :: _, [] => -1
  | _ :: _, _ :: _ => semver.comparePre v o
  end.

(** [utf8.RuneStart]: the byte is not a continuation byte of UTF-8. *)
Definition runeStart (c : ascii) : bool :=
  let n := nat_of_ascii c in
  ((n <? 128) || (192 <=? n))%nat.

(** The string is empty or starts with a byte that starts a rune. *)
Definition startsRune (s : string) : bool :=
  match s with
  | EmptyString => true
  | String c _ => runeStart c
  end.

(** The pair [q] is the pair [p] with white space around it. *)
Definition padded (p q : string) : Prop :=
  ∃ pre post,
    strings.onlySpace pre = true ∧ strings.onlySpace post = true
    ∧ q = pre +:+ p +:+ post.

(** ** A sample of the outside world *)

(** Four provider binaries and what [encoding/json] makes of their
    output.  The first
    reports version [v1.2.0], the second prints an object without
    members, the third prints text that is not JSON, and any other name
    fails to run. *)
Definition quoted (s : string) : string :=
  String "034" (s +:+ String "034" "").

Definition sampleReport : string :=
  "{" +:+ quoted "version" +:+ ":" +:+ quoted "v1.2.0" +:+ ","
  +:+ quoted "buildDate" +:+ ":" +:+ quoted "2020-05-01" +:+ "}".

Definition sampleDecode (data : string) : version.decoded :=
  if decide (data = sampleReport) then
    version.Object {| version.docVersion := Some "v1.2.0";
                      version.docBuildDate := Some "2020-05-01";
                      version.docMinDriverVersion := None |}
  else if decide (data = "{}") then
    version.Object {| version.docVersion := None;
                      version.docBuildDate := None;
                      version.docMinDriverVersion := None |}
  else version.Invalid "invalid character".

Definition sampleRun (ctx : unit) (name : string) (args : list string)
  : version.ran :=
  if decide (name = "provider-vault") then
    {| version.runErr := None; version.stdout := sampleReport;
       version.stderr := "" |}
  else if decide (name = "provider-empty") then
    {| version.runErr := None; version.stdout := "{}"; version.stderr := "" |}
  else if decide (name = "provider-text") then
    {| version.runErr := None; version.stdout := "1.2.0"; version.stderr := "" |}
  else
    {| version.runErr := Some "exit status 1"; version.stdout := "";
       version.stderr := "no such provider" |}.

(** The version 1.2.0. *)
Definition v1_2_0 : semver.Version :=
  {| semver.Major := 1; semver.Minor := 2; semver.Patch := 0;
     semver.Pre := []; semver.Build := [] |}.

(** * Verification *)

(** ** Evaluations of the model *)

Example Split_empty : strings.Split "" "," = [""].
Proof. reflexivity. Qed.

Example Split_pairs :
  strings.Split "vault=1.0.0, azure=2.1.3" "," = ["vault=1.0.0"; " azure=2.1.3"].
Proof. reflexivity. Qed.

Example TrimSpace_sample :
  strings.TrimSpace (String "009" " a b " +:+ String "194" (String "160" "")) = "a b".
Proof. reflexivity. Qed.

Example Make_plain :
  semver.Make "1.0.0"
  = semver.ok {| semver.Major := 1; semver.Minor := 0; semver.Patch := 0;
                 semver.Pre := []; semver.Build := [] |}.
Proof. reflexivity. Qed.

Example Make_full :
  semver.Make "1.2.3-rc.1+build.5"
  = semver.ok
      {| semver.Major := 1; semver.Minor := 2; semver.Patch := 3;
         semver.Pre :=
           [ {| semver.VersionStr := "rc"; semver.VersionNum := 0;
                semver.IsNum := false |};
             {| semver.VersionStr := ""; semver.VersionNum := 1;
                semver.IsNum := true |} ];
         semver.Build := ["build"; "5"] |}.
Proof. reflexivity. Qed.

Example Make_prefixed :
  semver.Make "v1.0.0" = semver.fail (semver.ErrInvalidChar semver.major "v1").
Proof. reflexivity. Qed.

Example Make_short : semver.Make "1.0" = semver.fail semver.ErrNoElements.
Proof. reflexivity. Qed.

(** ** Bytes and splits *)

Lemma allBytes_app P a b :
  allBytes P (a +:+ b) = allBytes P a && allBytes P b.
Proof.
  induction a as [|c a IH]; [done|].
  change (String c a +:+ b) with (String c (a +:+ b)).
  cbn [allBytes]. by rewrite IH, andb_assoc.
Qed.

Lemma allBytes_impl (P Q : ascii → bool) s :
  (∀ c, P c = true → Q c = true) → allBytes P s = true → allBytes Q s = true.
Proof.
  intros HPQ. induction s as [|c s IH]; [done|]. cbn [allBytes].
  intros [Hc Hs]%andb_true_iff. apply andb_true_iff. auto.
Qed.

Lemma containsOnly_allBytes s set :
  semver.containsOnly s set = allBytes (semver.ContainsByte set) s.
Proof. induction s as [|c s IH]; [done|]. cbn. by rewrite IH. Qed.

Lemma Split_nonempty s sep : strings.Split s sep ≠ [].
Proof.
  destruct s as [|c s]; [done|]. cbn.
  destruct (decide (c = sep)); [done|]. by destruct (strings.Split s sep).
Qed.

Lemma Cut_Some s sep a b :
  strings.Cut s sep = Some (a, b) → s = a +:+ String sep b.
Proof.
  revert a. induction s as [|c s IH]; intros a; [done|]. cbn.
  destruct (decide (c = sep)) as [->|Hne].
  - by intros [= <- <-].
  - destruct (strings.Cut s sep) as [[a' b']|] eqn:E; [|done].
    intros [= <- <-]. by rewrite (IH a' eq_refl).
Qed.

Lemma Cut_None s sep :
  strings.Cut s sep = None ↔ allBytes (λ c, bool_decide (c ≠ sep)) s = true.
Proof.
  induction s as [|c s IH]; [done|]. cbn.
  destruct (decide (c = sep)) as [->|Hne].
  - rewrite bool_decide_eq_false_2 by (intros ?; done). done.
  - rewrite bool_decide_eq_true_2 by done. cbn. rewrite <- IH.
    destruct (strings.Cut s sep) as [[??]|]; done.
Qed.

Lemma Split_Cut_None s sep :
  strings.Cut s sep = None → strings.Split s sep = [s].
Proof.
  induction s as [|c s IH]; [done|]. cbn.
  destruct (decide (c = sep)); [done|].
  destruct (strings.Cut s sep) as [[??]|]; [done|]. intros _.
  by rewrite IH.
Qed.

Lemma Split_Cut_Some s sep a b :
  strings.Cut s sep = Some (a, b) →
  strings.Split s sep = a :: strings.Split b sep.
Proof.
  revert a. induction s as [|c s IH]; intros a; [done|]. cbn.
  destruct (decide (c = sep)).
  - by intros [= <- <-].
  - destruct (strings.Cut s sep) as [[a' b']|]; [|done].
    intros [= <- <-]. by rewrite (IH a' eq_refl).
Qed.

Lemma Split_one s sep x :
  strings.Split s sep = [x] → x = s ∧ strings.Cut s sep = None.
Proof.
  destruct (strings.Cut s sep) as [[a b]|] eqn:E.
  - rewrite (Split_Cut_Some _ _ _ _ E). intros [= -> Hb].
    by destruct (Split_nonempty b sep).
  - rewrite (Split_Cut_None _ _ E). by intros [= ->].
Qed.

Lemma Split_two s sep a b :
  strings.Split s sep = [a; b] ↔
  strings.Cut s sep = Some (a, b) ∧ strings.Cut b sep = None.
Proof.
  split.
  - destruct (strings.Cut s sep) as [[a' b']|] eqn:E.
    + rewrite (Split_Cut_Some _ _ _ _ E). intros [= -> Hb].
      by apply Split_one in Hb as [-> ?].
    + by rewrite (Split_Cut_None _ _ E).
  - intros [E1 E2]. rewrite (Split_Cut_Some _ _ _ _ E1).
    by rewrite (Split_Cut_None _ _ E2).
Qed.

(** The bytes of the elements of a split and the separator are the bytes
    of the string. *)
Lemma allBytes_Split P s sep :
  P sep = true →
  Forall (λ e, allBytes P e = true) (strings.Split s sep) →
  allBytes P s = true.
Proof.
  intros Hsep. induction s as [|c s IH]; [done|]. cbn.
  destruct (decide (c = sep)) as [->|Hne].
  - intros [_ H]%Forall_cons. rewrite Hsep. cbn. auto.
  - destruct (strings.Split s sep) as [|h t] eqn:E.
    + by destruct (Split_nonempty s sep).
    + intros [[Hc Hh]%andb_true_iff Ht]%Forall_cons. rewrite Hc. cbn.
      apply IH. by constructor.
Qed.

(** ** Trimming *)

Ltac bool_arith :=
  repeat match goal with
         | H : _ && _ = true |- _ => apply andb_true_iff in H as [? ?]
         | H : _ || _ = true |- _ => apply orb_true_iff in H as [?|?]
         | H : (_ =? _)%nat = true |- _ => apply Nat.eqb_eq in H
         | H : (_ <=? _)%nat = true |- _ => apply Nat.leb_le in H
         end.

Lemma space2_bytes c0 c1 :
  strings.space2 c0 c1 = true → spaceByte c0 = true ∧ spaceByte c1 = true.
Proof.
  unfold strings.space2, spaceByte. intros H. bool_arith;
    (split; apply orb_true_iff; right; apply Nat.leb_le; lia).
Qed.

Lemma space3_bytes c0 c1 c2 :
  strings.space3 c0 c1 c2 = true →
  spaceByte c0 = true ∧ spaceByte c1 = true ∧ spaceByte c2 = true.
Proof.
  unfold strings.space3, spaceByte. intros H. bool_arith;
    (split; [|split]; apply orb_true_iff; right; apply Nat.leb_le; lia).
Qed.

Lemma TrimLeftSpace_bounded n s :
  (String.length s < n)%nat →
  ∃ pre, s = pre +:+ strings.TrimLeftSpace s ∧ allBytes spaceByte pre = true.
Proof.
  revert s. induction n as [|n IH]; intros s Hn; [lia|].
  destruct s as [|c0 s0]; [by exists ""|].
  cbn [strings.TrimLeftSpace].
  destruct (strings.asciiSpace c0) eqn:E0.
  { destruct (IH s0) as (pre & Hs & Hpre); [cbn in Hn; lia|].
    exists (String c0 pre). split.
    - change (String c0 pre +:+ ?t) with (String c0 (pre +:+ t)). by f_equal.
    - cbn. unfold spaceByte at 1. by rewrite E0. }
  destruct s0 as [|c1 s1]; [by exists ""|].
  destruct (strings.space2 c0 c1) eqn:E1.
  { destruct (IH s1) as (pre & Hs & Hpre); [cbn in Hn; lia|].
    apply space2_bytes in E1 as [H0 H1].
    exists (String c0 (String c1 pre)). split.
    - change (String c0 (String c1 pre) +:+ ?t)
        with (String c0 (String c1 (pre +:+ t))). by do 2 f_equal.
    - cbn. by rewrite H0, H1. }
  destruct s1 as [|c2 s2]; [by exists ""|].
  destruct (strings.space3 c0 c1 c2) eqn:E2; [|by exists ""].
  destruct (IH s2) as (pre & Hs & Hpre); [cbn in Hn; lia|].
  apply space3_bytes in E2 as (H0 & H1 & H2).
  exists (String c0 (String c1 (String c2 pre))). split.
  - change (String c0 (String c1 (String c2 pre)) +:+ ?t)
      with (String c0 (String c1 (String c2 (pre +:+ t)))). by do 3 f_equal.
  - cbn. by rewrite H0, H1, H2.
Qed.

Lemma TrimLeftSpace_decompose s :
  ∃ pre, s = pre +:+ strings.TrimLeftSpace s ∧ allBytes spaceByte pre = true.
Proof. apply (TrimLeftSpace_bounded (S (String.length s))). lia. Qed.

Lemma onlySpace_bytes s :
  strings.onlySpace s = true → allBytes spaceByte s = true.
Proof.
  unfold strings.onlySpace. intros H.
  destruct (TrimLeftSpace_decompose s) as (pre & Hs & Hpre).
  destruct (strings.TrimLeftSpace s); [|done].
  rewrite Hs, allBytes_app, Hpre. done.
Qed.

Lemma TrimRightSpace_decompose s :
  ∃ post, s = strings.TrimRightSpace s +:+ post ∧ allBytes spaceByte post = true.
Proof.
  induction s as [|c s (post & Hs & Hpost)]; [by exists ""|].
  cbn [strings.TrimRightSpace].
  destruct (strings.onlySpace (String c s)) eqn:E.
  - exists (String c s). split; [done|]. by apply onlySpace_bytes.
  - exists post. split; [|done].
    change (String c ?a +:+ post) with (String c (a +:+ post)). by f_equal.
Qed.

Lemma TrimSpace_decompose s :
  ∃ pre post, s = pre +:+ strings.TrimSpace s +:+ post
              ∧ allBytes spaceByte pre = true ∧ allBytes spaceByte post = true.
Proof.
  unfold strings.TrimSpace.
  destruct (TrimLeftSpace_decompose s) as (pre & Hs & Hpre).
  destruct (TrimRightSpace_decompose (strings.TrimLeftSpace s))
    as (post & Ht & Hpost).
  exists pre, post. split; [|done]. by rewrite <- Ht.
Qed.

(** Trimming a string made of white space only leaves nothing. *)
Lemma TrimSpace_onlySpace s :
  strings.onlySpace s = true → strings.TrimSpace s = "".
Proof.
  unfold strings.onlySpace, strings.TrimSpace.
  by destruct (strings.TrimLeftSpace s).
Qed.

(** A byte that occurs in no encoding of white space is in a string
    exactly when it is in the trimmed string. *)
Lemma Cut_TrimSpace_None s sep :
  spaceByte sep = false →
  strings.Cut (strings.TrimSpace s) sep = None → strings.Cut s sep = None.
Proof.
  intros Hsep. rewrite !Cut_None.
  destruct (TrimSpace_decompose s) as (pre & post & Hs & Hpre & Hpost).
  intros Ht. rewrite Hs, !allBytes_app, Ht.
  assert (∀ c, spaceByte c = true → bool_decide (c ≠ sep) = true) as Himp.
  { intros c Hc. apply bool_decide_eq_true_2. congruence. }
  rewrite (allBytes_impl _ _ _ Himp Hpre), (allBytes_impl _ _ _ Himp Hpost).
  done.
Qed.

(** ** The semantic-version library *)

Lemma SplitN_three s sep p0 p1 p2 :
  strings.SplitN s sep 3 = [p0; p1; p2] →
  ∃ r, strings.Cut s sep = Some (p0, r) ∧ strings.Cut r sep = Some (p1, p2).
Proof.
  cbn. destruct (strings.Cut s sep) as [[a b]|]; [|done].
  destruct (strings.Cut b sep) as [[a' b']|] eqn:E; [|done].
  intros [= -> -> ->]. by exists b.
Qed.

Lemma String_compare_refl s : String.compare s s = Eq.
Proof.
  induction s as [|c s IH]; [done|]. cbn.
  unfold Ascii.compare. by rewrite N.compare_refl.
Qed.

Lemma PRCompare_refl x : semver.PRCompare x x = 0.
Proof.
  unfold semver.PRCompare. destruct (semver.IsNum x).
  - by rewrite Z.eqb_refl.
  - by rewrite String_compare_refl.
Qed.

Lemma comparePre_refl l : semver.comparePre l l = 0.
Proof.
  induction l as [|x l IH]; [done|]. cbn. by rewrite PRCompare_refl.
Qed.

(** A version is equal to itself. *)
Lemma Compare_refl v : semver.Compare v v = 0.
Proof.
  unfold semver.Compare. rewrite !Z.eqb_refl. cbn.
  destruct (semver.Pre v) eqn:E; [done|]. rewrite <- E. apply comparePre_refl.
Qed.

Lemma comparePre_range v o :
  semver.comparePre v o = -1 ∨ semver.comparePre v o = 0
  ∨ semver.comparePre v o = 1.
Proof.
  revert o. induction v as [|x v IH]; intros [|y o]; cbn; auto.
  destruct (semver.PRCompare x y =? 0); [apply IH|].
  destruct (semver.PRCompare x y =? 1); auto.
Qed.

(** The result of a comparison is -1, 0 or 1. *)
Lemma Compare_range v o :
  semver.Compare v o = -1 ∨ semver.Compare v o = 0 ∨ semver.Compare v o = 1.
Proof.
  unfold semver.Compare.
  destruct (negb (semver.Major v =? semver.Major o)).
  { destruct (semver.Major v >? semver.Major o); auto. }
  destruct (negb (semver.Minor v =? semver.Minor o)).
  { destruct (semver.Minor v >? semver.Minor o); auto. }
  destruct (negb (semver.Patch v =? semver.Patch o)).
  { destruct (semver.Patch v >? semver.Patch o); auto. }
  destruct (semver.Pre v), (semver.Pre o); auto. apply comparePre_range.
Qed.

Lemma numbers_versionBytes c :
  semver.ContainsByte semver.numbers c = true →
  semver.ContainsByte versionBytes c = true.
Proof. destruct c as [[] [] [] [] [] [] [] []]; vm_compute; done. Qed.

Lemma alphanum_versionBytes c :
  semver.ContainsByte semver.alphanum c = true →
  semver.ContainsByte versionBytes c = true.
Proof. destruct c as [[] [] [] [] [] [] [] []]; vm_compute; done. Qed.

Lemma number_bytes p s n :
  semver.number p s = semver.ok n →
  allBytes (semver.ContainsByte versionBytes) s = true.
Proof.
  unfold semver.number.
  destruct (semver.containsOnly s semver.numbers) eqn:E; [|done]. intros _.
  rewrite containsOnly_allBytes in E.
  exact (allBytes_impl _ _ _ numbers_versionBytes E).
Qed.

Lemma NewPRVersion_bytes s v :
  semver.NewPRVersion s = semver.ok v →
  allBytes (semver.ContainsByte versionBytes) s = true.
Proof.
  unfold semver.NewPRVersion. destruct s as [|c s]; [done|].
  destruct (semver.containsOnly (String c s) semver.numbers) eqn:E.
  - intros _. rewrite containsOnly_allBytes in E.
    exact (allBytes_impl _ _ _ numbers_versionBytes E).
  - destruct (semver.containsOnly (String c s) semver.alphanum) eqn:E'; [|done].
    intros _. rewrite containsOnly_allBytes in E'.
    exact (allBytes_impl _ _ _ alphanum_versionBytes E').
Qed.

Lemma buildIdent_bytes s v :
  semver.buildIdent s = semver.ok v →
  allBytes (semver.ContainsByte versionBytes) s = true.
Proof.
  unfold semver.buildIdent. destruct s as [|c s]; [done|].
  destruct (semver.containsOnly (String c s) semver.alphanum) eqn:E; [|done].
  intros _. rewrite containsOnly_allBytes in E.
  exact (allBytes_impl _ _ _ alphanum_versionBytes E).
Qed.

Lemma each_ok {A B} (f : A → semver.res B) l l' :
  semver.each f l = semver.ok l' → Forall (λ x, ∃ y, f x = semver.ok y) l.
Proof.
  revert l'. induction l as [|x l IH]; intros l'; [constructor|]. cbn.
  destruct (f x) as [y|] eqn:E; [|done]. cbn.
  destruct (semver.each f l) as [ys|] eqn:E'; [|done]. intros _.
  constructor; eauto.
Qed.

Lemma section_bytes (P : ascii → bool) s sep x ids :
  semver.section s sep = (x, ids) →
  P sep = true → P "."%char = true →
  allBytes P x = true → Forall (λ e, allBytes P e = true) ids →
  allBytes P s = true.
Proof.
  unfold semver.section. intros Hsec Hsep Hdot Hx Hids.
  destruct (strings.Cut s sep) as [[a b]|] eqn:E.
  - injection Hsec as -> <-. rewrite (Cut_Some _ _ _ _ E), allBytes_app, Hx.
    cbn. rewrite Hsep. cbn. by apply (allBytes_Split P b "."%char).
  - by injection Hsec as -> _.
Qed.

(** Every byte of a string that [semver.Make] accepts is a letter, a
    digit, a hyphen, a dot or a plus sign. *)
Lemma Make_bytes s v :
  semver.Make s = semver.ok v →
  allBytes (semver.ContainsByte versionBytes) s = true.
Proof.
  unfold semver.Make, semver.Parse. destruct s as [|c0 s0]; [done|].
  set (s := String c0 s0). clearbody s.
  destruct (strings.SplitN s "." 3) as [|p0 [|p1 [|p2 [|??]]]] eqn:E; try done.
  apply SplitN_three in E as (r & E0 & E1).
  destruct (semver.number semver.major p0) as [n0|] eqn:H0; [|done]. cbn.
  destruct (semver.number semver.minor p1) as [n1|] eqn:H1; [|done]. cbn.
  destruct (semver.section p2 "+") as [x build] eqn:Hb.
  destruct (semver.section x "-") as [patchStr pre] eqn:Hp.
  destruct (semver.number semver.patch patchStr) as [n2|] eqn:H2; [|done]. cbn.
  destruct (semver.each semver.NewPRVersion pre) as [vpre|] eqn:Hpre; [|done].
  cbn.
  destruct (semver.each semver.buildIdent build) as [vbuild|] eqn:Hbuild;
    [|done].
  intros _.
  rewrite (Cut_Some _ _ _ _ E0), (Cut_Some _ _ _ _ E1).
  apply number_bytes in H0, H1, H2.
  rewrite allBytes_app, H0. cbn. rewrite allBytes_app, H1. cbn.
  apply (section_bytes _ _ _ _ _ Hb); [done..| |].
  - apply (section_bytes _ _ _ _ _ Hp); [done..|].
    apply each_ok in Hpre. eapply Forall_impl; [exact Hpre|].
    intros e [y Hy]. by eapply NewPRVersion_bytes.
  - apply each_ok in Hbuild. eapply Forall_impl; [exact Hbuild|].
    intros e [y Hy]. by eapply buildIdent_bytes.
Qed.

(** No valid version string contains the byte [sep] when [sep] is not
    one of the bytes of versions; this is so for the equals sign. *)
Lemma Make_Cut_None s v sep :
  semver.ContainsByte versionBytes sep = false →
  semver.Make s = semver.ok v → strings.Cut s sep = None.
Proof.
  intros Hsep Hs%Make_bytes. apply Cut_None.
  eapply allBytes_impl; [|exact Hs].
  intros c Hc. apply bool_decide_eq_true_2. congruence.
Qed.

(** A string with a leading [v] is not a version. *)
Lemma Make_leading_v s : ∃ err, semver.Make (String "v" s) = semver.fail err.
Proof.
  unfold semver.Make, semver.Parse. cbn [strings.SplitN strings.Cut].
  destruct (decide ("v"%char = "."%char)) as [?|_]; [done|].
  destruct (strings.Cut s ".") as [[a b]|]; [|eauto].
  destruct (strings.Cut b ".") as [[a' b']|]; [|eauto].
  cbn. eauto.
Qed.

(** ** The registry of minimum versions *)

Lemma fields_tokens p kv : fields p = Some kv → tokens p = Some kv.
Proof.
  unfold fields, tokens.
  destruct (strings.Split (strings.TrimSpace p) "=")
    as [|a [|b [|??]]] eqn:E; try done.
  apply Split_two in E as [-> _]. done.
Qed.

(** A pair whose version token is a valid version has one equals sign
    only, so both readings agree on it. *)
Lemma tokens_fields p provider version :
  tokens p = Some (provider, version) →
  version.isValidSemver version = None →
  fields p = Some (provider, version).
Proof.
  unfold tokens, fields, version.isValidSemver.
  destruct (strings.Cut (strings.TrimSpace p) "=") as [[a b]|] eqn:E; [|done].
  intros [= <- <-].
  destruct (semver.Make (strings.TrimSpace b)) as [v|] eqn:Hv; [|done].
  intros _.
  assert (strings.Cut b "=" = None) as Hb.
  { apply Cut_TrimSpace_None; [done|]. by eapply Make_Cut_None. }
  by rewrite (proj2 (Split_two _ _ _ _) (conj E Hb)).
Qed.

(** What the body of the loop does with a pair, by the fields of the
    pair. *)
Lemma entry_no_fields m p :
  fields p = None →
  version.entry m p
  = (m, Some (version.ErrFormat (strings.Split (strings.TrimSpace p) "="))).
Proof.
  unfold fields, version.entry.
  by destruct (strings.Split (strings.TrimSpace p) "=") as [|a [|b [|??]]].
Qed.

Lemma entry_fields m p provider version :
  fields p = Some (provider, version) →
  version.entry m p =
    if decide (provider = "" ∨ version = "")
    then (m, Some (version.ErrEmpty provider version))
    else match m !! provider with
         | Some v => (m, Some (version.ErrDuplicate provider v version))
         | None =>
             match version.isValidSemver version with
             | Some err => (m, Some (version.ErrNotSemver provider version err))
             | None => (<[provider := version]> m, None)
             end
         end.
Proof.
  unfold fields, version.entry.
  destruct (strings.Split (strings.TrimSpace p) "=")
    as [|a [|b [|??]]]; try done.
  intros [= <- <-].
  destruct (strings.TrimSpace a) as [|c k], (strings.TrimSpace b) as [|c' v];
    cbn [String.length Nat.eqb orb];
    [rewrite decide_True by auto; done ..|].
  by rewrite decide_False by (intros [?|?]; done).
Qed.

(** An error leaves the map as it was. *)
Lemma entry_error m p m' err :
  version.entry m p = (m', Some err) → m' = m.
Proof.
  destruct (fields p) as [[k v]|] eqn:E.
  - rewrite (entry_fields _ _ _ _ E). case_decide; [congruence|].
    destruct (m !! k); [congruence|].
    destruct (version.isValidSemver v); congruence.
  - rewrite (entry_no_fields _ _ E). congruence.
Qed.

(** The pairs the body of the loop accepts. *)
Lemma entry_accepted m p m' :
  version.entry m p = (m', None) ↔
  ∃ provider version,
    fields p = Some (provider, version) ∧ provider ≠ "" ∧ version ≠ ""
    ∧ m !! provider = None ∧ version.isValidSemver version = None
    ∧ m' = <[provider := version]> m.
Proof.
  split.
  - destruct (fields p) as [[k v]|] eqn:E.
    + rewrite (entry_fields _ _ _ _ E). case_decide as Hkv; [done|].
      destruct (m !! k) eqn:Hk; [done|].
      destruct (version.isValidSemver v) eqn:Hv; [done|].
      intros [= <-]. exists k, v. tauto.
    + by rewrite (entry_no_fields _ _ E).
  - intros (k & v & E & Hk & Hv & Hm & Hs & ->).
    rewrite (entry_fields _ _ _ _ E), decide_False by tauto.
    by rewrite Hm, Hs.
Qed.

Lemma entries_app m l1 l2 :
  version.entries m (l1 ++ l2) =
    match version.entries m l1 with
    | (m', None) => version.entries m' l2
    | (m', Some err) => (m', Some err)
    end.
Proof.
  revert m. induction l1 as [|p l1 IH]; intros m; [done|]. cbn.
  destruct (version.entry m p) as [m' [err|]]; [done|]. apply IH.
Qed.

(** A failing loop stops at the first element its body rejects. *)
Lemma entries_error m l m' err :
  version.entries m l = (m', Some err) →
  ∃ l1 p l2,
    l = l1 ++ p :: l2 ∧ version.entries m l1 = (m', None)
    ∧ version.entry m' p = (m', Some err).
Proof.
  revert m. induction l as [|p l IH]; intros m; [done|]. cbn.
  destruct (version.entry m p) as [m1 [e|]] eqn:E.
  - intros [= -> ->]. pose proof (entry_error _ _ _ _ E) as ->.
    by exists [], p, l.
  - intros (l1 & q & l2 & -> & H1 & H2)%IH.
    exists (p :: l1), q, l2. cbn. by rewrite E.
Qed.

(** An entry of the map survives the rest of a loop that succeeds. *)
Lemma entries_lookup m l m' provider version :
  version.entries m l = (m', None) →
  m !! provider = Some version → m' !! provider = Some version.
Proof.
  revert m. induction l as [|p l IH]; intros m; cbn.
  - by intros [= ->].
  - destruct (version.entry m p) as [m1 [e|]] eqn:E; [done|].
    intros Hl Hm. apply (IH _ Hl).
    apply entry_accepted in E as (k & v & _ & _ & _ & Hk & _ & ->).
    rewrite lookup_insert_ne; [done|]. congruence.
Qed.

(** A loop that succeeds has stored the fields of each of its pairs. *)
Lemma entries_stored m l m' p provider version :
  version.entries m l = (m', None) →
  p ∈ l → fields p = Some (provider, version) →
  m' !! provider = Some version.
Proof.
  revert m. induction l as [|q l IH]; intros m Hl Hp Hf.
  - by apply elem_of_nil in Hp.
  - cbn in Hl. destruct (version.entry m q) as [m1 [e|]] eqn:E; [done|].
    apply elem_of_cons in Hp as [->|Hp]; [|by eapply IH].
    apply entry_accepted in E as (k & v & Hf' & _ & _ & _ & _ & ->).
    rewrite Hf in Hf'. injection Hf' as <- <-.
    eapply entries_lookup; [exact Hl|]. apply lookup_insert_eq.
Qed.

Lemma onlySpace_no_comma s :
  strings.onlySpace s = true → strings.Cut s "," = None.
Proof.
  intros H%onlySpace_bytes. apply Cut_None.
  eapply allBytes_impl; [|exact H].
  intros c Hc. apply bool_decide_eq_true_2. intros ->. done.
Qed.

(** C2, as the code has it: the empty configuration string gives the
    empty map and no error.  A string that is not empty and holds white
    space only is not treated as empty: it is one pair, which trims to
    the empty string, has no equals sign, and is rejected with the
    format error. *)
Theorem empty_configuration :
  version.GetMinimumProviderVersions "" = (∅, None)
  ∧ ∀ s, s ≠ "" → strings.onlySpace s = true →
      version.GetMinimumProviderVersions s = (∅, Some (version.ErrFormat [""])).
Proof.
  split; [done|]. intros s Hs Hsp.
  destruct s as [|c s]; [done|]. unfold version.GetMinimumProviderVersions.
  rewrite (Split_Cut_None _ _ (onlySpace_no_comma _ Hsp)). cbn [version.entries].
  rewrite entry_no_fields.
  - by rewrite (TrimSpace_onlySpace _ Hsp).
  - unfold fields. by rewrite (TrimSpace_onlySpace _ Hsp).
Qed.

Lemma empty_configuration_witness :
  " " ≠ "" ∧ strings.onlySpace " " = true
  ∧ version.GetMinimumProviderVersions " " = (∅, Some (version.ErrFormat [""])).
Proof.
  split; [done|]. split; [reflexivity|].
  apply (proj2 empty_configuration " "); [done|reflexivity].
Defined.

(** C2 as stated fails: on the input made of one space, which is white
    space only, the function returns an error. *)
Lemma whitespace_configuration_rejected :
  strings.onlySpace " " = true
  ∧ version.GetMinimumProviderVersions " " = (∅, Some (version.ErrFormat [""]))
  ∧ version.GetMinimumProviderVersions " " ≠ (∅, None).
Proof. split; [reflexivity|]. split; [by vm_compute|]. by vm_compute. Qed.

Lemma wellFormed_splitsOnFirst p : wellFormed p → splitsOnFirst p.
Proof.
  intros (k & v & Hf & Hk & Hv). exists k, v.
  by rewrite (fields_tokens _ _ Hf).
Qed.

Lemma not_wellFormed_fields p :
  ¬ wellFormed p →
  fields p = None
  ∨ ∃ provider version,
      fields p = Some (provider, version) ∧ (provider = "" ∨ version = "").
Proof.
  intros Hwf. destruct (fields p) as [[k v]|] eqn:E; [|by left]. right.
  exists k, v. split; [done|].
  destruct (decide (k = "")); [by left|]. destruct (decide (v = "")); [by right|].
  destruct Hwf. by exists k, v.
Qed.

(** C3, as the code has it: a pair that the loop reaches, every pair
    before it being accepted, is accepted only if it is well formed: split on the equals sign it gives exactly two tokens, which
    are its two parts around its first equals sign, and neither is empty
    once trimmed.  A pair that is not well formed makes the function
    fail with a MalformedEntryError; so does, all the more, a pair that
    does not even split on its first equals sign into two non-empty
    tokens.  A pair without any equals sign is such a pair, and the
    error then shows the pair as the only element of the split. *)
Theorem malformed_pair_rejected
    (s : string) (l1 : list string) (p : string) (l2 : list string)
    (m : gmap string string) :
  s ≠ "" →
  strings.Split s "," = l1 ++ p :: l2 →
  version.entries ∅ l1 = (m, None) →
  (∀ m', version.entry m p = (m', None) → wellFormed p ∧ splitsOnFirst p)
  ∧ (¬ wellFormed p →
     ∃ err, version.GetMinimumProviderVersions s = (m, Some err)
            ∧ kindOf err = MalformedEntryError)
  ∧ (¬ splitsOnFirst p →
     ∃ err, version.GetMinimumProviderVersions s = (m, Some err)
            ∧ kindOf err = MalformedEntryError)
  ∧ (strings.Cut p "=" = None →
     version.GetMinimumProviderVersions s
     = (m, Some (version.ErrFormat [strings.TrimSpace p]))).
Proof.
  intros Hs Hsplit Hl1.
  assert (∀ err, version.entry m p = (m, Some err) →
                 version.GetMinimumProviderVersions s = (m, Some err)) as Hret.
  { intros err He. unfold version.GetMinimumProviderVersions.
    destruct s; [done|]. rewrite Hsplit, entries_app, Hl1. cbn. by rewrite He. }
  assert (¬ wellFormed p →
          ∃ err, version.GetMinimumProviderVersions s = (m, Some err)
                 ∧ kindOf err = MalformedEntryError) as Hbad.
  { intros [Hf|(k & v & Hf & Hkv)]%not_wellFormed_fields.
    - eexists. split; [apply Hret, entry_no_fields, Hf|done].
    - exists (version.ErrEmpty k v). split; [|done].
      apply Hret. rewrite (entry_fields _ _ _ _ Hf). by rewrite decide_True. }
  split; [|split; [|split]].
  - intros m' (k & v & Hf & Hk & Hv & _)%entry_accepted.
    assert (wellFormed p) as Hwf by (by exists k, v).
    split; [done|]. by apply wellFormed_splitsOnFirst.
  - exact Hbad.
  - intros Hno. apply Hbad. intros Hwf. by apply Hno, wellFormed_splitsOnFirst.
  - intros Hcut. apply Hret.
    assert (strings.Cut (strings.TrimSpace p) "=" = None) as Hcut'.
    { apply Cut_None. apply Cut_None in Hcut.
      destruct (TrimSpace_decompose p) as (pre & post & Hp & _).
      rewrite Hp, !allBytes_app in Hcut.
      by apply andb_true_iff in Hcut as [_ [? _]%andb_true_iff]. }
    rewrite entry_no_fields.
    + by rewrite (Split_Cut_None _ _ Hcut').
    + unfold fields. by rewrite (Split_Cut_None _ _ Hcut').
Qed.

Lemma malformed_pair_rejected_witness :
  (∀ m', version.entry ∅ "vault=1.0.0" = (m', None) →
         wellFormed "vault=1.0.0" ∧ splitsOnFirst "vault=1.0.0")
  ∧ (strings.Cut "vault1.0.0" "=" = None
     ∧ version.GetMinimumProviderVersions "azure=2.1.3,vault1.0.0"
       = (<["azure" := "2.1.3"]> ∅, Some (version.ErrFormat ["vault1.0.0"]))).
Proof.
  split.
  - apply (malformed_pair_rejected "vault=1.0.0" [] "vault=1.0.0" [] ∅);
      [done|reflexivity|reflexivity].
  - split; [reflexivity|].
    apply (malformed_pair_rejected "azure=2.1.3,vault1.0.0"
             ["azure=2.1.3"] "vault1.0.0" [] (<["azure" := "2.1.3"]> ∅));
      [done|reflexivity|by vm_compute|reflexivity].
Defined.

(** A pair with a second equals sign splits on its first one into two
    non-empty tokens, and is rejected all the same, with the format
    error. *)
Example registry_second_equals :
  splitsOnFirst "vault=1.0.0=x"
  ∧ version.GetMinimumProviderVersions "vault=1.0.0=x"
    = (∅, Some (version.ErrFormat ["vault"; "1.0.0"; "x"])).
Proof. split; [by exists "vault", "1.0.0=x"|by vm_compute]. Qed.

(** C3 as stated fails: the second pair of this input has no equals
    sign, and the function fails on the first pair, whose version is not
    a version, with the invalid-semver error. *)
Lemma malformed_pair_other_error :
  strings.Split "vault=bad,vault1.0.0" "," = ["vault=bad"; "vault1.0.0"]
  ∧ strings.Cut "vault1.0.0" "=" = None
  ∧ version.GetMinimumProviderVersions "vault=bad,vault1.0.0"
    = (∅, Some (version.ErrNotSemver "vault" "bad" semver.ErrNoElements))
  ∧ kindOf (version.ErrNotSemver "vault" "bad" semver.ErrNoElements)
    ≠ MalformedEntryError.
Proof. repeat split; (reflexivity || by vm_compute). Qed.

(** The example of the specification for a pair without equals sign. *)
Example registry_missing_equals :
  version.GetMinimumProviderVersions "vault1.0.0"
  = (∅, Some (version.ErrFormat ["vault1.0.0"])).
Proof. by vm_compute. Qed.

(** C4, as the code has it: when a pair of the form [provider=version]
    with non-empty tokens repeats the provider of an earlier pair, and
    every pair before it has been accepted, the function fails with the
    duplicate error, which names the provider, the version stored for it
    and the version of the repeating pair.  Nothing relates the two
    version strings: they may be equal or differ, and the second one is
    not yet checked for being a version. *)
Theorem duplicate_provider_rejected
    (s : string) (l0 : list string) (q : string) (l1 : list string)
    (p : string) (l2 : list string) (m : gmap string string)
    (provider v version : string) :
  strings.Split s "," = (l0 ++ q :: l1) ++ p :: l2 →
  version.entries ∅ (l0 ++ q :: l1) = (m, None) →
  fields q = Some (provider, v) →
  fields p = Some (provider, version) →
  version ≠ "" →
  version.GetMinimumProviderVersions s
  = (m, Some (version.ErrDuplicate provider v version))
  ∧ kindOf (version.ErrDuplicate provider v version) = DuplicateProviderError.
Proof.
  intros Hsplit Hl Hq Hp Hv. split; [|done].
  assert (m !! provider = Some v) as Hm.
  { eapply entries_stored; [exact Hl| |exact Hq].
    apply elem_of_app. right. apply elem_of_cons. by left. }
  assert (provider ≠ "") as Hk.
  { rewrite entries_app in Hl.
    destruct (version.entries ∅ l0) as [m0 [e|]]; [done|]. cbn in Hl.
    destruct (version.entry m0 q) as [m1 [e|]] eqn:E; [done|].
    apply entry_accepted in E as (k' & v' & Hq' & Hk' & _). congruence. }
  unfold version.GetMinimumProviderVersions. destruct s as [|c s].
  { cbn in Hsplit. destruct l0; simplify_list_eq. }
  rewrite Hsplit, entries_app, Hl. cbn [version.entries].
  rewrite (entry_fields _ _ _ _ Hp), decide_False by tauto.
  by rewrite Hm.
Qed.

Lemma duplicate_provider_rejected_witness :
  version.GetMinimumProviderVersions "vault=1.0.0,vault=1.0.0"
  = (<["vault" := "1.0.0"]> ∅,
     Some (version.ErrDuplicate "vault" "1.0.0" "1.0.0"))
  ∧ kindOf (version.ErrDuplicate "vault" "1.0.0" "1.0.0")
    = DuplicateProviderError.
Proof.
  apply (duplicate_provider_rejected "vault=1.0.0,vault=1.0.0"
           [] "vault=1.0.0" [] "vault=1.0.0" []);
    [reflexivity|by vm_compute|reflexivity|reflexivity|done].
Defined.

(** C4 as stated fails: the provider [vault] is in both pairs of this
    input, and the function fails on the first pair, whose version is
    not a version, with the invalid-semver error. *)
Lemma repeated_provider_other_error :
  fields "vault=bad" = Some ("vault", "bad")
  ∧ fields "vault=1.0.0" = Some ("vault", "1.0.0")
  ∧ strings.Split "vault=bad,vault=1.0.0" "," = ["vault=bad"; "vault=1.0.0"]
  ∧ version.GetMinimumProviderVersions "vault=bad,vault=1.0.0"
    = (∅, Some (version.ErrNotSemver "vault" "bad" semver.ErrNoElements))
  ∧ kindOf (version.ErrNotSemver "vault" "bad" semver.ErrNoElements)
    ≠ DuplicateProviderError.
Proof. repeat split; (reflexivity || by vm_compute). Qed.

(** The entries a successful loop adds to the map, pair by pair. *)
Lemma entries_valid m l :
  Forall (λ p, ∃ provider version,
            tokens p = Some (provider, version) ∧ provider ≠ ""
            ∧ version.isValidSemver version = None) l →
  NoDup (omap tokens l).*1 →
  (∀ provider, provider ∈ (omap tokens l).*1 → m !! provider = None) →
  version.entries m l = (list_to_map (omap tokens l) ∪ m, None).
Proof.
  revert m. induction l as [|p l IH]; intros m Hall Hnd Hm.
  { cbn. by rewrite (left_id_L ∅ (∪)). }
  apply Forall_cons in Hall as [(k & v & Ht & Hk & Hv) Hall].
  cbn [omap list_omap] in *. rewrite Ht in *. cbn in Hnd, Hm |- *.
  apply NoDup_cons in Hnd as [Hkl Hnd].
  assert (version.entry m p = (<[k := v]> m, None)) as ->.
  { apply entry_accepted. exists k, v.
    rewrite (tokens_fields _ _ _ Ht Hv). repeat split; try done.
    - intros ->. unfold version.isValidSemver in Hv. by cbn in Hv.
    - apply Hm, elem_of_cons. by left. }
  rewrite IH; [|done..|].
  - f_equal. rewrite <- insert_union_l, <- insert_union_r; [done|].
    by apply not_elem_of_list_to_map_1.
  - intros k' Hk'. rewrite lookup_insert_ne by (intros ->; done).
    apply Hm, elem_of_cons. by right.
Qed.

(** C8: when every pair of the configuration string has a non-empty
    provider token and a version token that is a valid version, and no
    provider occurs twice, the function succeeds; the map it returns
    sends the provider token of each pair to the version token of that
    pair, and holds nothing else. *)
Theorem registry_of_valid_pairs (s : string) :
  Forall (λ p, ∃ provider version,
            tokens p = Some (provider, version) ∧ provider ≠ ""
            ∧ version.isValidSemver version = None)
         (strings.Split s ",") →
  NoDup (omap tokens (strings.Split s ",")).*1 →
  ∃ m, version.GetMinimumProviderVersions s = (m, None)
       ∧ m = list_to_map (omap tokens (strings.Split s ","))
       ∧ ∀ provider version,
           m !! provider = Some version ↔
           ∃ p, p ∈ strings.Split s "," ∧ tokens p = Some (provider, version).
Proof.
  intros Hall Hnd. eexists. split; [|split; [reflexivity|]].
  - unfold version.GetMinimumProviderVersions. destruct s as [|c s].
    { apply Forall_cons in Hall as [(k & v & Ht & _) _]. done. }
    rewrite entries_valid; [|done..|].
    + by rewrite (right_id_L ∅ (∪)).
    + intros. apply lookup_empty.
  - intros k v. rewrite <- elem_of_list_to_map by done.
    rewrite list_elem_of_omap. done.
Qed.

Lemma sample_pairs :
  strings.Split " vault = 1.0.0 ,azure=2.1.3-rc.1" ","
  = [" vault = 1.0.0 "; "azure=2.1.3-rc.1"].
Proof. by vm_compute. Qed.

Lemma sample_tokens :
  omap tokens [" vault = 1.0.0 "; "azure=2.1.3-rc.1"]
  = [("vault", "1.0.0"); ("azure", "2.1.3-rc.1")].
Proof. by vm_compute. Qed.

Lemma registry_of_valid_pairs_witness :
  ∃ m, version.GetMinimumProviderVersions " vault = 1.0.0 ,azure=2.1.3-rc.1"
       = (m, None)
       ∧ m = list_to_map
               (omap tokens
                  (strings.Split " vault = 1.0.0 ,azure=2.1.3-rc.1" ","))
       ∧ ∀ provider version,
           m !! provider = Some version ↔
           ∃ p, p ∈ strings.Split " vault = 1.0.0 ,azure=2.1.3-rc.1" ","
                ∧ tokens p = Some (provider, version).
Proof.
  apply (registry_of_valid_pairs " vault = 1.0.0 ,azure=2.1.3-rc.1").
  - rewrite sample_pairs. apply Forall_cons; split; [|apply Forall_cons; split; [|by apply Forall_nil]].
    + exists "vault", "1.0.0". split; [by vm_compute|]. split; [done|by vm_compute].
    + exists "azure", "2.1.3-rc.1". split; [by vm_compute|]. split; [done|by vm_compute].
  - rewrite sample_pairs, sample_tokens. cbn [fmap list_fmap fst].
    apply NoDup_cons; split; [|apply NoDup_singleton].
    intros H%list_elem_of_singleton. discriminate H.
Defined.

(** The example of the specification for two valid pairs. *)
Example registry_vault_azure :
  version.GetMinimumProviderVersions "vault=1.0.0,azure=2.1.3"
  = ({[ "vault" := "1.0.0"; "azure" := "2.1.3" ]}, None).
Proof. by vm_compute. Qed.

(** In a loop that succeeds, each pair was accepted by the body, entered
    with the map the pairs before it had built. *)
Lemma entries_prefix_accepted m0 l m i q :
  version.entries m0 l = (m, None) → l !! i = Some q →
  ∃ mi, version.entries m0 (take i l) = (mi, None)
        ∧ (version.entry mi q).2 = None.
Proof.
  intros Hl Hq. rewrite <- (take_drop_middle _ _ _ Hq), entries_app in Hl.
  destruct (version.entries m0 (take i l)) as [mi [e|]]; [done|].
  exists mi. split; [done|]. cbn in Hl.
  by destruct (version.entry mi q) as [m1 [e|]].
Qed.

(** What a loop that succeeds leaves in the map was there before or
    comes from one of its pairs. *)
Lemma entries_lookup_inv m l m' provider version :
  version.entries m l = (m', None) →
  m' !! provider = Some version →
  m !! provider = Some version
  ∨ ∃ p, p ∈ l ∧ fields p = Some (provider, version).
Proof.
  revert m. induction l as [|q l IH]; intros m; cbn.
  - intros [= ->]. by left.
  - destruct (version.entry m q) as [m1 [e|]] eqn:E; [done|].
    intros Hl Hm'. destruct (IH _ Hl Hm') as [Hm1|(p & Hp & Hf)].
    + apply entry_accepted in E as (k & v & Hf & _ & _ & _ & _ & ->).
      destruct (decide (k = provider)) as [->|Hne].
      * rewrite lookup_insert_eq in Hm1. injection Hm1 as ->.
        right. exists q. split; [apply elem_of_cons; by left|done].
      * rewrite lookup_insert_ne in Hm1 by done. by left.
    + right. exists p. split; [apply elem_of_cons; by right|done].
Qed.

(** The keys of the map a loop has built from nothing are the providers
    of its pairs. *)
Lemma entries_providers l m provider :
  version.entries ∅ l = (m, None) →
  provider ∈ providers l ↔ is_Some (m !! provider).
Proof.
  intros Hl. unfold providers. rewrite list_elem_of_fmap. split.
  - intros ([k v] & -> & (p & Hp & Hf)%list_elem_of_omap).
    exists v. by eapply entries_stored.
  - intros [v Hv].
    destruct (entries_lookup_inv _ _ _ _ _ Hl Hv) as [Hm|(p & Hp & Hf)].
    + by rewrite lookup_empty in Hm.
    + exists (provider, v). split; [done|].
      apply list_elem_of_omap. by exists p.
Qed.

(** A pair that the body of the loop accepts violates nothing. *)
Lemma entry_accepted_no_violation before m q m' k :
  version.entries ∅ before = (m, None) →
  version.entry m q = (m', None) →
  violates before q k = false.
Proof.
  intros Hm (provider & v & Hf & Hk & Hv & Hnew & Hsem & _)%entry_accepted.
  unfold violates. rewrite Hf. cbn beta iota.
  rewrite decide_False by tauto.
  destruct k; try done.
  - unfold version.isValidSemver in Hsem. by destruct (semver.Make v).
  - apply bool_decide_eq_false_2.
    rewrite (entries_providers _ _ _ Hm), Hnew. by intros [? ?].
Qed.

(** A pair that the body of the loop rejects violates what the error
    says. *)
Lemma entry_rejected_violation before m p m' err :
  version.entries ∅ before = (m, None) →
  version.entry m p = (m', Some err) →
  violates before p (kindOf err) = true.
Proof.
  intros Hm. unfold violates. destruct (fields p) as [[k v]|] eqn:Hf.
  - rewrite (entry_fields _ _ _ _ Hf). case_decide as Hkv.
    { by intros [= _ <-]. }
    destruct (m !! k) as [v0|] eqn:Hk.
    { intros [= _ <-]. cbn. apply bool_decide_eq_true_2.
      apply (entries_providers _ _ _ Hm). by exists v0. }
    destruct (version.isValidSemver v) as [e|] eqn:Hv; [|done].
    intros [= _ <-]. cbn. unfold version.isValidSemver in Hv.
    by destruct (semver.Make v).
  - rewrite (entry_no_fields _ _ Hf). by intros [= _ <-].
Qed.

(** No pair of a loop that succeeds violates anything. *)
Lemma entries_no_violation l m i q k :
  version.entries ∅ l = (m, None) → l !! i = Some q →
  violates (take i l) q k = false.
Proof.
  intros Hl Hq.
  destruct (entries_prefix_accepted _ _ _ i q Hl Hq) as (mi & Hmi & Hacc).
  destruct (version.entry mi q) as [m' [e|]] eqn:E; [done|].
  by eapply entry_accepted_no_violation.
Qed.

Lemma GetMinimumProviderVersions_pairsOf s :
  version.GetMinimumProviderVersions s = version.entries ∅ (pairsOf s).
Proof. by destruct s. Qed.

(** C9: a configuration string one of whose pairs violates something
    makes the function fail, and the function reports the first
    violation.  The pairs split into the pairs before some pair [p], the
    pair [p] and the pairs after it, such that [p] is the violating pair
    that was given or comes before it, no pair before [p] violates
    anything, the kind of the error that the function returns is a
    violation of [p], the map that it returns is the one built from the
    pairs before [p], and the pairs after [p] have no part in the
    result: any other pairs in their place give the same map and the
    same error.  Conversely the function fails only on a violation: the
    kind of its error is a violation of one of the pairs.  The function
    of the embedding has no state, so a given input has one result. *)
Theorem first_violation_reported (s : string) :
  (∀ i q k,
     pairsOf s !! i = Some q →
     violates (take i (pairsOf s)) q k = true →
     ∃ l1 p l2 m err,
       pairsOf s = l1 ++ p :: l2
       ∧ (length l1 ≤ i)%nat
       ∧ (∀ j q' k', l1 !! j = Some q' → violates (take j l1) q' k' = false)
       ∧ violates l1 p (kindOf err) = true
       ∧ version.GetMinimumProviderVersions s = (m, Some err)
       ∧ version.entries ∅ l1 = (m, None)
       ∧ version.entry m p = (m, Some err)
       ∧ ∀ l2', version.entries ∅ (l1 ++ p :: l2') = (m, Some err))
  ∧ (∀ m err,
       version.GetMinimumProviderVersions s = (m, Some err) →
       ∃ i q, pairsOf s !! i = Some q
              ∧ violates (take i (pairsOf s)) q (kindOf err) = true).
Proof.
  rewrite GetMinimumProviderVersions_pairsOf. split.
  - intros i q k Hq Hviol.
    destruct (version.entries ∅ (pairsOf s)) as [m [err|]] eqn:E.
    2:{ by rewrite (entries_no_violation _ _ _ _ _ E Hq) in Hviol. }
    apply entries_error in E as (l1 & p & l2 & Hsplit & Hl1 & Hp).
    exists l1, p, l2, m, err. split; [done|]. split; [|split; [|split]].
    + destruct (decide (length l1 ≤ i)%nat) as [|Hlt]; [done|].
      rewrite Hsplit in Hq, Hviol.
      rewrite lookup_app_l in Hq by lia. rewrite take_app_le in Hviol by lia.
      by rewrite (entries_no_violation _ _ _ _ _ Hl1 Hq) in Hviol.
    + intros j q' k' Hq'. by eapply entries_no_violation.
    + by eapply entry_rejected_violation.
    + split; [done|]. split; [done|]. split; [done|].
      intros l2'. rewrite entries_app, Hl1. cbn. by rewrite Hp.
  - intros m err (l1 & p & l2 & Hsplit & Hl1 & Hp)%entries_error.
    exists (length l1), p. rewrite Hsplit. split.
    + by rewrite list_lookup_middle.
    + rewrite take_app_length. by eapply entry_rejected_violation.
Qed.

Lemma first_violation_reported_witness :
  pairsOf "vault=1.0.0,azure,vault=2.0.0,=" !! 2%nat = Some "vault=2.0.0"
  ∧ violates (take 2 (pairsOf "vault=1.0.0,azure,vault=2.0.0,="))
      "vault=2.0.0" DuplicateProviderError = true
  ∧ ∃ l1 p l2 m err,
      pairsOf "vault=1.0.0,azure,vault=2.0.0,=" = l1 ++ p :: l2
      ∧ (length l1 ≤ 2)%nat
      ∧ (∀ j q' k', l1 !! j = Some q' → violates (take j l1) q' k' = false)
      ∧ violates l1 p (kindOf err) = true
      ∧ version.GetMinimumProviderVersions "vault=1.0.0,azure,vault=2.0.0,="
        = (m, Some err)
      ∧ version.entries ∅ l1 = (m, None)
      ∧ version.entry m p = (m, Some err)
      ∧ ∀ l2', version.entries ∅ (l1 ++ p :: l2') = (m, Some err).
Proof.
  assert (pairsOf "vault=1.0.0,azure,vault=2.0.0,=" !! 2%nat
          = Some "vault=2.0.0") as H1 by reflexivity.
  assert (violates (take 2 (pairsOf "vault=1.0.0,azure,vault=2.0.0,="))
            "vault=2.0.0" DuplicateProviderError = true) as H2
    by (by vm_compute).
  split; [exact H1|]. split; [exact H2|].
  exact (proj1 (first_violation_reported "vault=1.0.0,azure,vault=2.0.0,=")
           2%nat "vault=2.0.0" DuplicateProviderError H1 H2).
Defined.

(** A string that the parser of versions rejects is a violation, and
    the function fails on it. *)
Example registry_rejects_notaversion :
  violates [] "vault=notaversion" InvalidSemverError = true
  ∧ (version.GetMinimumProviderVersions "vault=notaversion").2
    = Some (version.ErrNotSemver "vault" "notaversion" semver.ErrNoElements).
Proof. split; by vm_compute. Qed.

(** In the input of the witness the second pair is the first violation;
    the third and the fourth pair, a duplicate and a malformed pair, are
    not reported. *)
Example first_of_three_violations :
  version.GetMinimumProviderVersions "vault=1.0.0,azure,vault=2.0.0,="
  = (<["vault" := "1.0.0"]> ∅, Some (version.ErrFormat ["azure"]))
  ∧ violates ["vault=1.0.0"; "azure"] "vault=2.0.0" DuplicateProviderError
    = true
  ∧ violates ["vault=1.0.0"; "azure"; "vault=2.0.0"] "=" MalformedEntryError
    = true.
Proof. repeat split; by vm_compute. Qed.

(** The example of the specification for a version token that is not a
    version. *)
Example registry_not_a_version :
  version.GetMinimumProviderVersions "vault=notaversion"
  = (∅, Some (version.ErrNotSemver "vault" "notaversion"
                semver.ErrNoElements)).
Proof. by vm_compute. Qed.

(** C7: [normalizeVersion] removes one leading [v] and nothing else; a
    string that does not start with [v] is returned as it is. *)
Theorem normalizeVersion_strips_one_v :
  (∀ s, version.normalizeVersion (String "v" s) = s)
  ∧ (∀ c s, c ≠ "v"%char →
            version.normalizeVersion (String c s) = String c s)
  ∧ version.normalizeVersion "" = ""
  ∧ version.normalizeVersion "v1.2.3" = "1.2.3"
  ∧ version.normalizeVersion "1.2.3" = "1.2.3"
  ∧ version.normalizeVersion "vv1.2.3" = "v1.2.3".
Proof.
  split; [reflexivity|]. split; [|by repeat split].
  intros c s Hc. unfold version.normalizeVersion, strings.TrimPrefix. cbn.
  by rewrite decide_False.
Qed.

Lemma normalizeVersion_strips_one_v_witness :
  "1"%char ≠ "v"%char ∧ version.normalizeVersion "1.2.3" = "1.2.3".
Proof.
  split; [done|].
  apply (proj1 (proj2 normalizeVersion_strips_one_v) "1"%char ".2.3"). done.
Defined.

(** ** The compatibility check *)

Lemma isProviderCompatible_ok a b va vb :
  semver.Make a = semver.ok va → semver.Make b = semver.ok vb →
  version.isProviderCompatible a b = (semver.Compare va vb >=? 0, None).
Proof. unfold version.isProviderCompatible. by intros -> ->. Qed.

Lemma isProviderCompatible_fail a b :
  version.isValidSemver a ≠ None ∨ version.isValidSemver b ≠ None →
  ∃ err, version.isProviderCompatible a b = (false, Some (version.Semver err))
         ∧ (version.isValidSemver a = Some err
            ∨ version.isValidSemver a = None
              ∧ version.isValidSemver b = Some err).
Proof.
  unfold version.isProviderCompatible, version.isValidSemver.
  destruct (semver.Make a) as [va|ea]; [|by eauto].
  destruct (semver.Make b) as [vb|eb]; [|by eauto].
  by intros [?|?].
Qed.

Lemma geb_zero_iff z :
  (z = -1 ∨ z = 0 ∨ z = 1) → (z >=? 0) = true ↔ z = 0 ∨ z = 1.
Proof. intros Hz. rewrite Z.geb_le. lia. Qed.

Section Compatibility.

Context {context : Type}.
Variable Run : context → string → list string → version.ran.
Variable decode : string → version.decoded.

Abbreviation getProviderVersion := (version.getProviderVersion Run decode).
Abbreviation IsProviderCompatible := (version.IsProviderCompatible Run decode).

(** The three outcomes of the probe. *)
Lemma getProviderVersion_run_error ctx providerName err :
  version.runErr (Run ctx providerName ["--version"]) = Some err →
  getProviderVersion ctx providerName
  = ("", Some (version.ErrRun providerName err
                 (version.stderr (Run ctx providerName ["--version"])))).
Proof. unfold version.getProviderVersion. by intros ->. Qed.

Lemma getProviderVersion_decode_error ctx providerName err :
  version.runErr (Run ctx providerName ["--version"]) = None →
  decode (version.stdout (Run ctx providerName ["--version"]))
  = version.Invalid err →
  getProviderVersion ctx providerName = ("", Some (version.ErrUnmarshal err)).
Proof.
  unfold version.getProviderVersion, version.Unmarshal. by intros -> ->.
Qed.

Lemma getProviderVersion_decoded ctx providerName d :
  version.runErr (Run ctx providerName ["--version"]) = None →
  decode (version.stdout (Run ctx providerName ["--version"]))
  = version.Object d →
  getProviderVersion ctx providerName
  = (default "" (version.docVersion d), None).
Proof.
  unfold version.getProviderVersion, version.Unmarshal. by intros -> ->.
Qed.

(** C1: when the probe succeeds and both versions, normalized, are valid
    versions, the function returns no error, and its verdict is [true]
    exactly when the comparison of the probed version with the minimum
    gives 0 (equal) or 1 (greater).  So the verdict is [true] when the
    two normalized strings are the same and [false] when the comparison
    gives -1 (less). *)
Theorem compatible_iff_not_less
    (ctx : context) (provider minProviderVersion curr : string)
    (currV minV : semver.Version) :
  getProviderVersion ctx provider = (curr, None) →
  semver.Make (version.normalizeVersion curr) = semver.ok currV →
  semver.Make (version.normalizeVersion minProviderVersion) = semver.ok minV →
  ∃ verdict,
    IsProviderCompatible ctx provider minProviderVersion = (verdict, None)
    ∧ (verdict = true ↔
       semver.Compare currV minV = 0 ∨ semver.Compare currV minV = 1)
    ∧ (version.normalizeVersion curr
       = version.normalizeVersion minProviderVersion → verdict = true)
    ∧ (semver.Compare currV minV = -1 → verdict = false).
Proof.
  intros Hprobe Hcurr Hmin. exists (semver.Compare currV minV >=? 0).
  split; [|split; [|split]].
  - unfold version.IsProviderCompatible. rewrite Hprobe.
    by apply isProviderCompatible_ok.
  - apply geb_zero_iff, Compare_range.
  - intros Heq. rewrite Heq, Hmin in Hcurr. injection Hcurr as ->.
    by rewrite Compare_refl.
  - by intros ->.
Qed.

(** C5: when the probe fails, because the command does not run to a
    successful end or because its output is not decoded, the function
    returns the verdict [false] with the error of the probe, whatever
    the minimum version is: the minimum is not looked at, be it a
    version or not. *)
Theorem probe_failure_propagated
    (ctx : context) (provider curr : string) (err : version.error) :
  getProviderVersion ctx provider = (curr, Some err) →
  (∀ minProviderVersion,
     IsProviderCompatible ctx provider minProviderVersion = (false, Some err))
  ∧ (kindOf err = ProcessError
     ∧ version.runErr (Run ctx provider ["--version"]) ≠ None
     ∨ kindOf err = DecodeError
       ∧ version.runErr (Run ctx provider ["--version"]) = None
       ∧ ∃ e, decode (version.stdout (Run ctx provider ["--version"]))
              = version.Invalid e).
Proof.
  intros Hprobe. split.
  - intros minProviderVersion. unfold version.IsProviderCompatible.
    by rewrite Hprobe.
  - revert Hprobe. unfold version.getProviderVersion, version.Unmarshal.
    destruct (version.runErr (Run ctx provider ["--version"])) as [e|].
    + intros [= _ <-]. by left.
    + destruct (decode (version.stdout (Run ctx provider ["--version"])))
        as [e|d]; [|done].
      intros [= _ <-]. right. eauto.
Qed.

(** C6: the comparison returns an error, and the verdict [false], as
    soon as one of its two arguments is not a valid version: the error
    of the first argument if it is not one, that of the second
    otherwise.  Through the check, the arguments are the normalized
    probed version and the normalized minimum.  A report without the
    [version] member leaves the probed version empty, and the empty
    string is not a version. *)
Theorem invalid_version_is_error :
  (∀ a b,
     version.isValidSemver a ≠ None ∨ version.isValidSemver b ≠ None →
     ∃ err, version.isProviderCompatible a b
            = (false, Some (version.Semver err))
            ∧ kindOf (version.Semver err) = InvalidSemverError)
  ∧ (∀ ctx provider minProviderVersion curr,
       getProviderVersion ctx provider = (curr, None) →
       version.isValidSemver (version.normalizeVersion curr) ≠ None
       ∨ version.isValidSemver (version.normalizeVersion minProviderVersion)
         ≠ None →
       ∃ err, IsProviderCompatible ctx provider minProviderVersion
              = (false, Some (version.Semver err)))
  ∧ (∀ ctx provider minProviderVersion d,
       version.runErr (Run ctx provider ["--version"]) = None →
       decode (version.stdout (Run ctx provider ["--version"]))
       = version.Object d →
       version.docVersion d = None →
       getProviderVersion ctx provider = ("", None)
       ∧ IsProviderCompatible ctx provider minProviderVersion
         = (false, Some (version.Semver semver.ErrEmptyVersion))).
Proof.
  split; [|split].
  - intros a b (err & -> & _)%isProviderCompatible_fail. by exists err.
  - intros ctx provider minProviderVersion curr Hprobe
      (err & Herr & _)%isProviderCompatible_fail.
    exists err. unfold version.IsProviderCompatible. by rewrite Hprobe.
  - intros ctx provider minProviderVersion d Hrun Hdec Hd.
    pose proof (getProviderVersion_decoded _ _ _ Hrun Hdec) as Hprobe.
    rewrite Hd in Hprobe. split; [done|].
    unfold version.IsProviderCompatible. by rewrite Hprobe.
Qed.

(** C10: the two entry points disagree on a minimum version written
    with a leading [v].  As the version token of the only pair of a
    configuration string, it makes the registry fail with the
    invalid-semver error, because the token is parsed as it is; as the
    minimum of the compatibility check it is normalized first, and the
    check gives a verdict without error when what follows the [v] is a
    valid version. *)
Theorem leading_v_minimum_disagreement
    (p provider s : string) (ctx : context) (providerName curr : string)
    (currV minV : semver.Version) :
  strings.Cut p "," = None →
  fields p = Some (provider, String "v" s) →
  provider ≠ "" →
  semver.Make s = semver.ok minV →
  getProviderVersion ctx providerName = (curr, None) →
  semver.Make (version.normalizeVersion curr) = semver.ok currV →
  (∃ err, version.GetMinimumProviderVersions p
          = (∅, Some (version.ErrNotSemver provider (String "v" s) err))
          ∧ kindOf (version.ErrNotSemver provider (String "v" s) err)
            = InvalidSemverError)
  ∧ IsProviderCompatible ctx providerName (String "v" s)
    = (semver.Compare currV minV >=? 0, None).
Proof.
  intros Hcomma Hf Hprovider Hmin Hprobe Hcurr. split.
  - destruct (Make_leading_v s) as [err Herr]. exists err. split; [|done].
    unfold version.GetMinimumProviderVersions. destruct p as [|c p]; [done|].
    rewrite (Split_Cut_None _ _ Hcomma). cbn [version.entries].
    rewrite (entry_fields _ _ _ _ Hf), decide_False by (intros [?|?]; done).
    rewrite lookup_empty. unfold version.isValidSemver. by rewrite Herr.
  - unfold version.IsProviderCompatible. rewrite Hprobe.
    by apply isProviderCompatible_ok.
Qed.

End Compatibility.

Lemma compatible_iff_not_less_witness :
  version.getProviderVersion sampleRun sampleDecode () "provider-vault"
  = ("v1.2.0", None)
  ∧ ∃ verdict,
      version.IsProviderCompatible sampleRun sampleDecode () "provider-vault"
        "1.2.0" = (verdict, None)
      ∧ (verdict = true ↔
         semver.Compare v1_2_0 v1_2_0 = 0 ∨ semver.Compare v1_2_0 v1_2_0 = 1)
      ∧ (version.normalizeVersion "v1.2.0" = version.normalizeVersion "1.2.0" →
         verdict = true)
      ∧ (semver.Compare v1_2_0 v1_2_0 = -1 → verdict = false).
Proof.
  split; [by vm_compute|].
  apply (compatible_iff_not_less sampleRun sampleDecode () "provider-vault"
           "1.2.0" "v1.2.0" v1_2_0 v1_2_0); by vm_compute.
Defined.

Lemma probe_failure_propagated_witness :
  version.getProviderVersion sampleRun sampleDecode () "provider-text"
  = ("", Some (version.ErrUnmarshal "invalid character"))
  ∧ ∀ minProviderVersion,
      version.IsProviderCompatible sampleRun sampleDecode () "provider-text"
        minProviderVersion
      = (false, Some (version.ErrUnmarshal "invalid character")).
Proof.
  split; [by vm_compute|].
  apply (probe_failure_propagated sampleRun sampleDecode () "provider-text" "").
  by vm_compute.
Defined.

Lemma invalid_version_is_error_witness :
  (version.isValidSemver "1.2.0" ≠ None ∨ version.isValidSemver "1.2" ≠ None)
  ∧ (∃ err, version.isProviderCompatible "1.2.0" "1.2"
            = (false, Some (version.Semver err))
            ∧ kindOf (version.Semver err) = InvalidSemverError)
  ∧ version.getProviderVersion sampleRun sampleDecode () "provider-empty"
    = ("", None)
  ∧ version.IsProviderCompatible sampleRun sampleDecode () "provider-empty"
      "1.0.0"
    = (false, Some (version.Semver semver.ErrEmptyVersion)).
Proof.
  assert (version.isValidSemver "1.2.0" ≠ None
          ∨ version.isValidSemver "1.2" ≠ None) as H.
  { right. by vm_compute. }
  split; [exact H|]. split.
  - exact (proj1 (invalid_version_is_error sampleRun sampleDecode)
             "1.2.0" "1.2" H).
  - apply (proj2 (proj2 (invalid_version_is_error sampleRun sampleDecode))
             () "provider-empty" "1.0.0"
             {| version.docVersion := None; version.docBuildDate := None;
                version.docMinDriverVersion := None |}); by vm_compute.
Defined.

Lemma leading_v_minimum_disagreement_witness :
  (∃ err, version.GetMinimumProviderVersions "vault=v1.2.0"
          = (∅, Some (version.ErrNotSemver "vault" "v1.2.0" err))
          ∧ kindOf (version.ErrNotSemver "vault" "v1.2.0" err)
            = InvalidSemverError)
  ∧ version.IsProviderCompatible sampleRun sampleDecode () "provider-vault"
      "v1.2.0"
    = (semver.Compare v1_2_0 v1_2_0 >=? 0, None).
Proof.
  apply (leading_v_minimum_disagreement sampleRun sampleDecode
           "vault=v1.2.0" "vault" "1.2.0" () "provider-vault" "v1.2.0");
    by vm_compute.
Defined.

(** The disagreement on the string [v1.0.0]: the registry rejects it,
    the check accepts it as the minimum. *)
Example leading_v_rejected_by_registry :
  version.GetMinimumProviderVersions "vault=v1.0.0"
  = (∅, Some (version.ErrNotSemver "vault" "v1.0.0"
                (semver.ErrInvalidChar semver.major "v1"))).
Proof. by vm_compute. Qed.

Example leading_v_accepted_by_check :
  version.IsProviderCompatible sampleRun sampleDecode () "provider-vault"
    "v1.0.0"
  = (true, None).
Proof. by vm_compute. Qed.

(** * Further properties of the registry *)

Lemma Split_app s t sep :
  strings.Split (s +:+ String sep t) sep
  = strings.Split s sep ++ strings.Split t sep.
Proof.
  induction s as [|c s IH].
  - change ("" +:+ ?x) with x. cbn. by rewrite decide_True.
  - change (String c s +:+ ?x) with (String c (s +:+ x)). cbn.
    destruct (decide (c = sep)); [by rewrite IH|]. rewrite IH.
    destruct (strings.Split s sep) as [|h l] eqn:E; [|done].
    by destruct (Split_nonempty s sep).
Qed.

(** No element of a split contains the separator. *)
Lemma Split_no_sep s sep :
  Forall (λ e, strings.Cut e sep = None) (strings.Split s sep).
Proof.
  induction s as [|c s IH]; cbn; [by repeat constructor|].
  destruct (decide (c = sep)); [by constructor|].
  destruct (strings.Split s sep) as [|h l]; [repeat constructor; cbn|].
  - by rewrite decide_False.
  - apply Forall_cons in IH as [Hh Hl]. constructor; [|done]. cbn.
    by rewrite decide_False, Hh.
Qed.

Lemma Split_singleton_empty s sep : strings.Split s sep = [""] → s = "".
Proof. by intros [-> _]%Split_one. Qed.

Lemma validPair_nonempty p provider version :
  fields p = Some (provider, version) →
  version.isValidSemver version = None → version ≠ "".
Proof. intros _ Hv ->. by vm_compute in Hv. Qed.

(** The loops that succeed: every pair is valid, no provider is in the
    map at the start or occurs twice, and the map grows by the fields of
    the pairs. *)
Lemma entries_success m l m' :
  version.entries m l = (m', None) ↔
  Forall validPair l ∧ NoDup (providers l)
  ∧ (∀ provider, provider ∈ providers l → m !! provider = None)
  ∧ m' = list_to_map (omap fields l) ∪ m.
Proof.
  unfold providers. revert m m'. induction l as [|p l IH]; intros m m'; cbn.
  { rewrite (left_id_L ∅ (∪)). split.
    - intros [= ->]. repeat split; [constructor..|by intros ? ?%elem_of_nil].
    - by intros (_ & _ & _ & ->). }
  split.
  - destruct (version.entry m p) as [m1 [e|]] eqn:E; [done|].
    apply entry_accepted in E as (k & v & Hf & Hk & Hv & Hm & Hsem & ->).
    intros (Hall & Hnd & Hfresh & ->)%IH. rewrite Hf. cbn.
    assert (k ∉ (omap fields l).*1) as Hkl.
    { intros Hin. specialize (Hfresh _ Hin). by rewrite lookup_insert_eq in Hfresh. }
    repeat split.
    + constructor; [by exists k, v|done].
    + by constructor.
    + intros k' [->|Hin]%elem_of_cons; [done|].
      specialize (Hfresh _ Hin).
      rewrite lookup_insert_ne in Hfresh; [done|]. by intros ->.
    + rewrite <- insert_union_l, <- insert_union_r; [done|].
      by apply not_elem_of_list_to_map_1.
  - intros ([(k & v & Hf & Hk & Hsem) Hall]%Forall_cons & Hnd & Hfresh & ->).
    rewrite Hf in Hnd, Hfresh |- *. cbn in Hnd, Hfresh |- *.
    apply NoDup_cons in Hnd as [Hkl Hnd].
    assert (version.entry m p = (<[k := v]> m, None)) as ->.
    { apply entry_accepted. exists k, v. repeat split; try done.
      - by eapply validPair_nonempty.
      - apply Hfresh, elem_of_cons. by left. }
    apply IH. repeat split; try done.
    + intros k' Hin. rewrite lookup_insert_ne by (by intros ->).
      apply Hfresh, elem_of_cons. by right.
    + rewrite <- insert_union_l, <- insert_union_r; [done|].
      by apply not_elem_of_list_to_map_1.
Qed.

Lemma validPair_omap_length l :
  Forall validPair l → length (omap fields l) = length l.
Proof.
  induction 1 as [|p l (k & v & Hf & _) _ IH]; [done|].
  cbn. rewrite Hf. cbn. by rewrite IH.
Qed.

(** X1: the calls that succeed.  The function returns a map and no
    error exactly when the input is empty, and the map is empty, or
    every comma-separated pair is valid and no provider occurs twice;
    the map then holds the fields of the pairs, one entry for each
    pair. *)
Theorem registry_success_iff (s : string) (m : gmap string string) :
  version.GetMinimumProviderVersions s = (m, None) ↔
  (s = "" ∧ m = ∅)
  ∨ (s ≠ "" ∧ Forall validPair (strings.Split s ",")
     ∧ NoDup (providers (strings.Split s ","))
     ∧ m = list_to_map (omap fields (strings.Split s ","))
     ∧ size m = length (strings.Split s ",")).
Proof.
  unfold version.GetMinimumProviderVersions. destruct s as [|c s].
  { split; [intros [= <-]; by left|]. by intros [[_ ->]|[? _]]. }
  rewrite entries_success, (right_id_L ∅ (∪)). split.
  - intros (Hall & Hnd & _ & ->). right. repeat split; try done.
    rewrite map_size_list_to_map by done. by apply validPair_omap_length.
  - intros [[? _]|(_ & Hall & Hnd & -> & _)]; [done|].
    by repeat split.
Qed.

(** X2: the order of the pairs does not matter to a call that
    succeeds: an input with the same pairs in another order gives the
    same map. *)
Theorem registry_order_irrelevant
    (s1 s2 : string) (m : gmap string string) :
  strings.Split s1 "," ≡ₚ strings.Split s2 "," →
  version.GetMinimumProviderVersions s1 = (m, None) →
  version.GetMinimumProviderVersions s2 = (m, None).
Proof.
  intros Hperm. unfold version.GetMinimumProviderVersions.
  destruct s1 as [|c1 s1].
  { change (strings.Split "" ",") with [""] in Hperm.
    apply Permutation_singleton_l in Hperm. symmetry in Hperm.
    by rewrite (Split_singleton_empty _ _ Hperm). }
  destruct s2 as [|c2 s2].
  { change (strings.Split "" ",") with [""] in Hperm.
    apply Permutation_singleton_r in Hperm.
    by apply Split_singleton_empty in Hperm. }
  rewrite !entries_success, !(right_id_L ∅ (∪)). unfold providers.
  intros (Hall & Hnd & _ & ->). split; [|split; [|split]].
  - by rewrite <- Hperm.
  - by rewrite <- Hperm.
  - intros. apply lookup_empty.
  - apply list_to_map_proper; [done|]. by rewrite Hperm.
Qed.

Lemma registry_order_irrelevant_witness :
  version.GetMinimumProviderVersions "azure=2.1.3,vault=1.0.0"
  = ({[ "vault" := "1.0.0"; "azure" := "2.1.3" ]}, None).
Proof.
  apply (registry_order_irrelevant "vault=1.0.0,azure=2.1.3"
           "azure=2.1.3,vault=1.0.0").
  - change (["vault=1.0.0"; "azure=2.1.3"] ≡ₚ ["azure=2.1.3"; "vault=1.0.0"]).
    apply perm_swap.
  - by vm_compute.
Defined.

(** The pairs of two inputs joined by a comma are the pairs of the
    first followed by the pairs of the second. *)
Lemma registry_concat s t :
  s ≠ "" →
  version.GetMinimumProviderVersions (s +:+ "," +:+ t)
  = match version.GetMinimumProviderVersions s with
    | (m, None) => version.entries m (strings.Split t ",")
    | (m, Some err) => (m, Some err)
    end.
Proof.
  intros Hs. change ("," +:+ t) with (String "," t).
  unfold version.GetMinimumProviderVersions.
  destruct s as [|c s]; [done|].
  change (String c s +:+ ?x) with (String c (s +:+ x)) at 1.
  change (String c (s +:+ ?x)) with (String c s +:+ x).
  by rewrite Split_app, entries_app.
Qed.

(** X3: two inputs that are accepted can be joined by a comma exactly
    when their maps have no provider in common, and the joined input
    then gives the union of the two maps. *)
Theorem registry_concat_union
    (s t : string) (m1 m2 : gmap string string) :
  s ≠ "" → t ≠ "" →
  version.GetMinimumProviderVersions s = (m1, None) →
  version.GetMinimumProviderVersions t = (m2, None) →
  (m1 ##ₘ m2 →
   version.GetMinimumProviderVersions (s +:+ "," +:+ t) = (m1 ∪ m2, None))
  ∧ (∀ m, version.GetMinimumProviderVersions (s +:+ "," +:+ t) = (m, None) →
          m1 ##ₘ m2 ∧ m = m1 ∪ m2).
Proof.
  intros Hs Ht Hm1 Hm2. rewrite (registry_concat _ _ Hs), Hm1.
  unfold version.GetMinimumProviderVersions in Hm2. destruct t as [|c t]; [done|].
  set (pairs := strings.Split (String c t) ",") in *.
  apply entries_success in Hm2 as (Hall & Hnd & _ & Hm2).
  rewrite (right_id_L ∅ (∪)) in Hm2.
  assert (∀ k, k ∈ providers pairs ↔ is_Some (m2 !! k)) as Hdom.
  { intros k. unfold providers. rewrite Hm2. split.
    - intros ([k' v] & -> & Hin)%list_elem_of_fmap. exists v.
      by apply elem_of_list_to_map.
    - intros [v Hv]. apply elem_of_list_to_map in Hv; [|done].
      apply list_elem_of_fmap. by exists (k, v). }
  split.
  - intros Hdisj. apply entries_success. split; [done|]. split; [done|]. split.
    + intros k [v Hv]%Hdom.
      destruct (m1 !! k) as [v1|] eqn:Hk; [|done].
      by destruct (map_disjoint_spec m1 m2) as [H _]; destruct (H Hdisj k v1 v).
    + rewrite <- Hm2. by apply map_union_comm.
  - intros m (_ & _ & Hfresh & ->)%entries_success.
    assert (m1 ##ₘ m2) as Hdisj.
    { apply map_disjoint_spec. intros k v1 v2 Hk1 Hk2.
      assert (k ∈ providers pairs) as Hin by (apply Hdom; eauto).
      specialize (Hfresh _ Hin). congruence. }
    split; [done|]. rewrite <- Hm2. symmetry. by apply map_union_comm.
Qed.

Lemma registry_concat_union_witness :
  ({[ "vault" := "1.0.0" ]} : gmap string string) ##ₘ {[ "azure" := "2.1.3" ]}
  ∧ version.GetMinimumProviderVersions ("vault=1.0.0" +:+ "," +:+ "azure=2.1.3")
    = ({[ "vault" := "1.0.0" ]} ∪ {[ "azure" := "2.1.3" ]}, None).
Proof.
  assert (({[ "vault" := "1.0.0" ]} : gmap string string)
          ##ₘ {[ "azure" := "2.1.3" ]}) as H.
  { by apply map_disjoint_singleton_l_2, lookup_singleton_ne. }
  split; [exact H|].
  apply (registry_concat_union "vault=1.0.0" "azure=2.1.3");
    [done|done|by vm_compute|by vm_compute|exact H].
Defined.

(** X4: the error of an input stays when more pairs are added after a
    comma: the same map and the same error are returned whatever
    follows. *)
Theorem registry_error_stable
    (s : string) (m : gmap string string) (err : version.error) :
  version.GetMinimumProviderVersions s = (m, Some err) →
  ∀ t, version.GetMinimumProviderVersions (s +:+ "," +:+ t) = (m, Some err).
Proof.
  intros Hs t. rewrite registry_concat, Hs; [done|]. by intros ->.
Qed.

Lemma registry_error_stable_witness :
  version.GetMinimumProviderVersions "vault=1"
  = (∅, Some (version.ErrNotSemver "vault" "1" semver.ErrNoElements))
  ∧ version.GetMinimumProviderVersions ("vault=1" +:+ "," +:+ "azure=2.1.3")
    = (∅, Some (version.ErrNotSemver "vault" "1" semver.ErrNoElements)).
Proof.
  assert (version.GetMinimumProviderVersions "vault=1"
          = (∅, Some (version.ErrNotSemver "vault" "1" semver.ErrNoElements)))
    as H by (by vm_compute).
  split; [exact H|]. exact (registry_error_stable "vault=1" _ _ H "azure=2.1.3").
Defined.

(** X5: a comma at either end of the input is an error.  A leading
    comma makes the first pair empty: the function returns the empty map
    and the format error.  With a trailing comma the last pair is empty:
    the function fails, and when the input before the comma is accepted
    it fails with the format error and returns the map of that input. *)
Theorem registry_comma_at_end :
  (∀ s, version.GetMinimumProviderVersions ("," +:+ s)
        = (∅, Some (version.ErrFormat [""])))
  ∧ (∀ s, ∃ m err,
       version.GetMinimumProviderVersions (s +:+ ",") = (m, Some err))
  ∧ (∀ s m, s ≠ "" →
       version.GetMinimumProviderVersions s = (m, None) →
       version.GetMinimumProviderVersions (s +:+ ",")
       = (m, Some (version.ErrFormat [""]))).
Proof.
  split; [|split].
  - intros s. change ("," +:+ s) with (String "," s).
    unfold version.GetMinimumProviderVersions. cbn [strings.Split].
    by rewrite decide_True.
  - intros s. destruct (decide (s = "")) as [->|Hs].
    { exists ∅, (version.ErrFormat [""]). by vm_compute. }
    change (s +:+ ",") with (s +:+ "," +:+ ""). rewrite (registry_concat _ _ Hs).
    destruct (version.GetMinimumProviderVersions s) as [m [err|]] eqn:E.
    + by exists m, err.
    + exists m, (version.ErrFormat [""]). by vm_compute.
  - intros s m Hs Hm.
    change (s +:+ ",") with (s +:+ "," +:+ ""). rewrite (registry_concat _ _ Hs).
    rewrite Hm. by vm_compute.
Qed.

Lemma registry_comma_at_end_witness :
  "vault=1.0.0" ≠ ""
  ∧ version.GetMinimumProviderVersions "vault=1.0.0"
    = ({[ "vault" := "1.0.0" ]}, None)
  ∧ version.GetMinimumProviderVersions ("vault=1.0.0" +:+ ",")
    = ({[ "vault" := "1.0.0" ]}, Some (version.ErrFormat [""])).
Proof.
  assert (version.GetMinimumProviderVersions "vault=1.0.0"
          = ({[ "vault" := "1.0.0" ]}, None)) as H by (by vm_compute).
  split; [done|]. split; [exact H|].
  apply (proj2 (proj2 registry_comma_at_end) "vault=1.0.0"); [done|exact H].
Defined.

(** Trimming and splitting add no byte. *)
Lemma allBytes_TrimSpace P s :
  allBytes P s = true → allBytes P (strings.TrimSpace s) = true.
Proof.
  destruct (TrimSpace_decompose s) as (pre & post & Hs & _).
  rewrite Hs at 1. rewrite !allBytes_app.
  by intros [_ [? _]%andb_true_iff]%andb_true_iff.
Qed.

Lemma allBytes_Split_elements P s sep :
  allBytes P s = true →
  Forall (λ e, allBytes P e = true) (strings.Split s sep).
Proof.
  induction s as [|c s IH]; cbn; [by repeat constructor|].
  intros [Hc Hs]%andb_true_iff. specialize (IH Hs).
  destruct (decide (c = sep)); [by constructor|].
  destruct (strings.Split s sep) as [|h l]; [repeat constructor; cbn|].
  - by rewrite Hc.
  - apply Forall_cons in IH as [Hh Hl]. constructor; [|done]. cbn.
    by rewrite Hc, Hh.
Qed.

(** The provider of a pair taken from a split on commas contains
    neither a comma nor an equals sign. *)
Lemma fields_provider_bytes s p provider version :
  p ∈ strings.Split s "," → fields p = Some (provider, version) →
  strings.Cut provider "," = None ∧ strings.Cut provider "=" = None.
Proof.
  intros Hp. unfold fields.
  destruct (strings.Split (strings.TrimSpace p) "=")
    as [|a [|b [|??]]] eqn:E; try done.
  intros [= <- <-]. split.
  - pose proof (Split_no_sep s ",") as Hall.
    rewrite Forall_forall in Hall. specialize (Hall _ Hp).
    apply Cut_None in Hall. apply Cut_None, allBytes_TrimSpace.
    apply allBytes_TrimSpace in Hall.
    pose proof (allBytes_Split_elements _ _ "="%char Hall) as Hel.
    rewrite E in Hel. by apply Forall_cons in Hel as [? _].
  - pose proof (Split_no_sep (strings.TrimSpace p) "=") as Hall.
    rewrite E in Hall. apply Forall_cons in Hall as [Ha _].
    apply Cut_None in Ha. by apply Cut_None, allBytes_TrimSpace.
Qed.

(** Normalization leaves a valid version as it is. *)
Lemma normalizeVersion_valid v :
  version.isValidSemver v = None → version.normalizeVersion v = v.
Proof.
  unfold version.isValidSemver. destruct v as [|c v]; [done|].
  destruct (decide (c = "v"%char)) as [->|Hc].
  - destruct (Make_leading_v v) as [err ->]. done.
  - intros _. unfold version.normalizeVersion, strings.TrimPrefix. cbn.
    by rewrite decide_False.
Qed.

(** The map that comes back, with or without an error, is the map of a
    loop that succeeded on the first pairs of the input. *)
Lemma registry_map_prefix s m oerr :
  version.GetMinimumProviderVersions s = (m, oerr) →
  ∃ l1 l2, strings.Split s "," = l1 ++ l2 ∧ version.entries ∅ l1 = (m, None).
Proof.
  unfold version.GetMinimumProviderVersions. destruct s as [|c s].
  { intros [= <- <-]. by exists [], [""]. }
  destruct oerr as [err|].
  - intros (l1 & p & l2 & Hsplit & Hl1 & _)%entries_error.
    by exists l1, (p :: l2).
  - intros H. exists (strings.Split (String c s) ","), [].
    by rewrite app_nil_r.
Qed.

(** X6: whatever the function returns, with an error or without, every
    entry of the returned map comes from a pair of the input: its key is
    the provider of the pair and its value the version.  The key is not
    empty and holds no comma and no equals sign; the value is a valid
    version, which normalization leaves as it is. *)
Theorem registry_entries_valid
    (s : string) (m : gmap string string) (oerr : option version.error)
    (provider version : string) :
  version.GetMinimumProviderVersions s = (m, oerr) →
  m !! provider = Some version →
  (∃ p, p ∈ strings.Split s "," ∧ fields p = Some (provider, version))
  ∧ provider ≠ ""
  ∧ strings.Cut provider "," = None
  ∧ strings.Cut provider "=" = None
  ∧ version.isValidSemver version = None
  ∧ version.normalizeVersion version = version.
Proof.
  intros (l1 & l2 & Hsplit & Hl1)%registry_map_prefix Hm.
  destruct (entries_lookup_inv _ _ _ _ _ Hl1 Hm) as [H0|(p & Hp & Hf)].
  { by rewrite lookup_empty in H0. }
  apply entries_success in Hl1 as (Hall & _).
  rewrite Forall_forall in Hall.
  destruct (Hall _ Hp) as (k & v & Hf' & Hk & Hv).
  rewrite Hf in Hf'. injection Hf' as <- <-.
  assert (p ∈ strings.Split s ",") as Hin.
  { rewrite Hsplit. apply elem_of_app. by left. }
  destruct (fields_provider_bytes _ _ _ _ Hin Hf) as [Hc He].
  split; [by exists p|]. repeat split; try done.
  by apply normalizeVersion_valid.
Qed.

Lemma registry_entries_valid_witness :
  (∃ p, p ∈ strings.Split " vault = 1.0.0 ,azure" ","
        ∧ fields p = Some ("vault", "1.0.0"))
  ∧ "vault" ≠ ""
  ∧ strings.Cut "vault" "," = None
  ∧ strings.Cut "vault" "=" = None
  ∧ version.isValidSemver "1.0.0" = None
  ∧ version.normalizeVersion "1.0.0" = "1.0.0".
Proof.
  apply (registry_entries_valid " vault = 1.0.0 ,azure"
           {[ "vault" := "1.0.0" ]} (Some (version.ErrFormat ["azure"]))).
  - by vm_compute.
  - apply lookup_singleton_eq.
Defined.

(** X7: the error of the function tells what was wrong and agrees with
    the map that comes with it.  A format error shows the split of one
    of the pairs, which has not two elements; an empty-token error shows
    a token that is empty; a duplicate error names a provider that the
    returned map holds, with the version stored for it; an
    invalid-semver error names a provider that the returned map does not
    hold, and carries the error of the parser for the version.  The
    function returns no other error. *)
Theorem registry_error_payload
    (s : string) (m : gmap string string) (err : version.error) :
  version.GetMinimumProviderVersions s = (m, Some err) →
  match err with
  | version.ErrFormat pv =>
      length pv ≠ 2%nat
      ∧ ∃ p, p ∈ strings.Split s "," ∧ pv = strings.Split (strings.TrimSpace p) "="
  | version.ErrEmpty provider version => provider = "" ∨ version = ""
  | version.ErrDuplicate provider v version =>
      m !! provider = Some v ∧ provider ≠ "" ∧ version ≠ ""
  | version.ErrNotSemver provider version e =>
      m !! provider = None ∧ provider ≠ ""
      ∧ version.isValidSemver version = Some e
  | _ => False
  end.
Proof.
  unfold version.GetMinimumProviderVersions. destruct s as [|c s]; [done|].
  intros (l1 & p & l2 & Hsplit & _ & Hp)%entries_error. revert Hp.
  assert (p ∈ strings.Split (String c s) ",") as Hin.
  { rewrite Hsplit. apply elem_of_app. right. apply elem_of_cons. by left. }
  destruct (fields p) as [[k v]|] eqn:Hf.
  - rewrite (entry_fields _ _ _ _ Hf). case_decide as Hkv.
    { by intros [= <-]. }
    destruct (m !! k) as [v0|] eqn:Hk.
    { intros [= <-]. split; [done|]. tauto. }
    destruct (version.isValidSemver v) as [e|] eqn:Hv; [|done].
    intros [= <-]. split; [done|]. split; [tauto|done].
  - rewrite (entry_no_fields _ _ Hf). intros [= <-]. split; [|by exists p].
    unfold fields in Hf.
    by destruct (strings.Split (strings.TrimSpace p) "=") as [|a [|b [|??]]].
Qed.

Lemma registry_error_payload_witness :
  ({[ "vault" := "1.0.0" ]} : gmap string string) !! "vault" = Some "1.0.0"
  ∧ "vault" ≠ "" ∧ "x" ≠ "".
Proof.
  apply (registry_error_payload "vault=1.0.0,vault=x" {[ "vault" := "1.0.0" ]}
           (version.ErrDuplicate "vault" "1.0.0" "x")).
  by vm_compute.
Defined.

(** * The order of versions *)

Ltac zcases :=
  repeat match goal with
         | H : context [(?a >? ?b)] |- _ => rewrite (Z.gtb_ltb a b) in H
         | |- context [(?a >? ?b)] => rewrite (Z.gtb_ltb a b)
         end;
  repeat match goal with
         | H : context [(?a =? ?b)] |- _ => destruct (Z.eqb_spec a b)
         | |- context [(?a =? ?b)] => destruct (Z.eqb_spec a b)
         | H : context [(?a <? ?b)] |- _ => destruct (Z.ltb_spec a b)
         | |- context [(?a <? ?b)] => destruct (Z.ltb_spec a b)
         end;
  cbn [negb] in *; try lia; try congruence.

Lemma PRCompare_range x y :
  semver.PRCompare x y = -1 ∨ semver.PRCompare x y = 0
  ∨ semver.PRCompare x y = 1.
Proof.
  unfold semver.PRCompare.
  destruct (semver.IsNum x), (semver.IsNum y); auto.
  - zcases; auto.
  - destruct (String.compare _ _); auto.
Qed.

Lemma PRCompare_antisym x y :
  semver.PRCompare y x = - semver.PRCompare x y.
Proof.
  unfold semver.PRCompare.
  destruct (semver.IsNum x), (semver.IsNum y); try done.
  - zcases.
  - rewrite (String.compare_antisym (semver.VersionStr x)).
    by destruct (String.compare _ _).
Qed.

Lemma String_compare_gt_trans a b c :
  String.compare a b = Gt → String.compare b c = Gt → String.compare a c = Gt.
Proof.
  intros Hab Hbc.
  destruct (String.compare a c) eqn:Hac; [| |done].
  - apply String.compare_eq_iff in Hac as ->.
    rewrite String.compare_antisym, Hbc in Hab. done.
  - assert (String.le a c) as H1 by (unfold String.le, String.leb; by rewrite Hac).
    assert (String.le c b) as H2.
    { unfold String.le, String.leb. by rewrite String.compare_antisym, Hbc. }
    assert (String.le a b) as H3 by (by etrans).
    unfold String.le, String.leb in H3. by rewrite Hab in H3.
Qed.

Lemma PRCompare_eq_l x y z :
  semver.PRCompare x y = 0 → semver.PRCompare x z = semver.PRCompare y z.
Proof.
  unfold semver.PRCompare.
  destruct (semver.IsNum x), (semver.IsNum y), (semver.IsNum z); try done.
  - zcases.
  - destruct (String.compare (semver.VersionStr x) (semver.VersionStr y))
      eqn:E; try done.
    by apply String.compare_eq_iff in E as ->.
Qed.

Lemma PRCompare_eq_r x y z :
  semver.PRCompare y z = 0 → semver.PRCompare x y = semver.PRCompare x z.
Proof.
  intros H. rewrite (PRCompare_antisym y x), (PRCompare_antisym z x).
  f_equal. by apply PRCompare_eq_l.
Qed.

Lemma PRCompare_gt_trans x y z :
  semver.PRCompare x y = 1 → semver.PRCompare y z = 1 →
  semver.PRCompare x z = 1.
Proof.
  unfold semver.PRCompare.
  destruct (semver.IsNum x), (semver.IsNum y), (semver.IsNum z); try done.
  - zcases.
  - destruct (String.compare (semver.VersionStr x) (semver.VersionStr y))
      eqn:E1; try done.
    destruct (String.compare (semver.VersionStr y) (semver.VersionStr z))
      eqn:E2; try done.
    by rewrite (String_compare_gt_trans _ _ _ E1 E2).
Qed.

Lemma comparePre_range_cases x v y o :
  semver.comparePre (x :: v) (y :: o)
  = match semver.PRCompare x y with
    | 0 => semver.comparePre v o
    | 1 => 1
    | _ => -1
    end.
Proof.
  cbn. by destruct (PRCompare_range x y) as [->|[->| ->]].
Qed.

Lemma comparePre_antisym v o :
  semver.comparePre o v = - semver.comparePre v o.
Proof.
  revert o. induction v as [|x v IH]; intros [|y o]; try done.
  rewrite !comparePre_range_cases, (PRCompare_antisym x y).
  destruct (PRCompare_range x y) as [->|[->| ->]]; cbn; [done|apply IH|done].
Qed.

Lemma comparePre_eq_l a b c :
  semver.comparePre a b = 0 → semver.comparePre a c = semver.comparePre b c.
Proof.
  revert b c. induction a as [|x a IH]; intros [|y b] c; try done.
  rewrite comparePre_range_cases.
  destruct (PRCompare_range x y) as [H|[H|H]]; rewrite H; try done.
  intros Hab. destruct c as [|z c]; [done|].
  rewrite !comparePre_range_cases, (PRCompare_eq_l _ _ z H).
  destruct (semver.PRCompare y z) as [|[| |]|]; try done. by apply IH.
Qed.

Lemma comparePre_eq_r a b c :
  semver.comparePre b c = 0 → semver.comparePre a b = semver.comparePre a c.
Proof.
  intros H. rewrite (comparePre_antisym b a), (comparePre_antisym c a).
  f_equal. by apply comparePre_eq_l.
Qed.

Lemma comparePre_gt_trans a b c :
  semver.comparePre a b = 1 → semver.comparePre b c = 1 →
  semver.comparePre a c = 1.
Proof.
  revert b c. induction a as [|x a IH]; intros [|y b] [|z c]; try done.
  rewrite !comparePre_range_cases.
  destruct (PRCompare_range x y) as [Hxy|[Hxy|Hxy]]; rewrite Hxy; try done;
    destruct (PRCompare_range y z) as [Hyz|[Hyz|Hyz]]; rewrite Hyz; try done.
  - rewrite (PRCompare_eq_l _ _ z Hxy), Hyz. apply IH.
  - by rewrite (PRCompare_eq_l _ _ z Hxy), Hyz.
  - by rewrite <- (PRCompare_eq_r x _ _ Hyz), Hxy.
  - by rewrite (PRCompare_gt_trans _ _ _ Hxy Hyz).
Qed.

Lemma lexstep_if x y rest :
  (if negb (x =? y) then if x >? y then 1 else -1 else rest)
  = lexstep (x ?= y) rest.
Proof.
  unfold Z.gtb. destruct (Z.compare_spec x y) as [->|H|H]; cbn.
  - by rewrite Z.eqb_refl.
  - by rewrite (proj2 (Z.eqb_neq x y)) by lia.
  - by rewrite (proj2 (Z.eqb_neq x y)) by lia.
Qed.

(** [semver.Compare] is the lexicographic comparison of major, minor,
    patch and the pre-release lists. *)
Lemma Compare_lex v o :
  semver.Compare v o
  = lexstep (semver.Major v ?= semver.Major o)
      (lexstep (semver.Minor v ?= semver.Minor o)
         (lexstep (semver.Patch v ?= semver.Patch o)
            (comparePreField (semver.Pre v) (semver.Pre o)))).
Proof. unfold semver.Compare. by rewrite !lexstep_if. Qed.

Lemma lexstep_antisym x y r r' :
  r' = - r → lexstep (y ?= x) r' = - lexstep (x ?= y) r.
Proof.
  intros ->. rewrite (Z.compare_antisym x y).
  by destruct (x ?= y).
Qed.

Lemma lexstep_eq_l x y z r12 r13 r23 :
  (r12 = 0 → r13 = r23) →
  lexstep (x ?= y) r12 = 0 → lexstep (x ?= z) r13 = lexstep (y ?= z) r23.
Proof.
  intros Hr. destruct (Z.compare_spec x y) as [->|H|H]; cbn; try done.
  intros H12. by rewrite (Hr H12).
Qed.

Lemma lexstep_gt_trans x y z r12 r23 r13 :
  (r12 = 1 → r23 = 1 → r13 = 1) →
  lexstep (x ?= y) r12 = 1 → lexstep (y ?= z) r23 = 1 →
  lexstep (x ?= z) r13 = 1.
Proof.
  intros Hr H1 H2.
  destruct (x ?= y) eqn:Exy; cbn in H1; try done;
    destruct (y ?= z) eqn:Eyz; cbn in H2; try done.
  - apply Z.compare_eq_iff in Exy, Eyz. subst.
    rewrite Z.compare_refl. cbn. auto.
  - apply Z.compare_eq_iff in Exy. subst. by rewrite Eyz.
  - apply Z.compare_eq_iff in Eyz. subst. by rewrite Exy.
  - apply Z.compare_gt_iff in Exy, Eyz.
    rewrite (proj2 (Z.compare_gt_iff x z)); [done|lia].
Qed.

Lemma comparePreField_antisym v o :
  comparePreField o v = - comparePreField v o.
Proof. destruct v, o; try done. apply comparePre_antisym. Qed.

Lemma comparePreField_eq_l a b c :
  comparePreField a b = 0 → comparePreField a c = comparePreField b c.
Proof. destruct a, b, c; try done. apply comparePre_eq_l. Qed.

Lemma comparePreField_gt_trans a b c :
  comparePreField a b = 1 → comparePreField b c = 1 →
  comparePreField a c = 1.
Proof. destruct a, b, c; try done. apply comparePre_gt_trans. Qed.

Lemma Compare_antisym v o : semver.Compare o v = - semver.Compare v o.
Proof.
  rewrite !Compare_lex. do 3 apply lexstep_antisym.
  apply comparePreField_antisym.
Qed.

Lemma Compare_eq_l a b c :
  semver.Compare a b = 0 → semver.Compare a c = semver.Compare b c.
Proof.
  rewrite !Compare_lex. do 3 apply lexstep_eq_l.
  apply comparePreField_eq_l.
Qed.

Lemma Compare_gt_trans a b c :
  semver.Compare a b = 1 → semver.Compare b c = 1 → semver.Compare a c = 1.
Proof.
  rewrite !Compare_lex. do 3 apply lexstep_gt_trans.
  apply comparePreField_gt_trans.
Qed.

(** The order of versions is transitive. *)
Lemma Compare_ge_trans a b c :
  semver.Compare a b >= 0 → semver.Compare b c >= 0 → semver.Compare a c >= 0.
Proof.
  intros Hab Hbc.
  destruct (Compare_range a b) as [H1|[H1|H1]]; [lia| |].
  { by rewrite (Compare_eq_l _ _ c H1). }
  destruct (Compare_range b c) as [H2|[H2|H2]]; [lia| |].
  - assert (semver.Compare c b = 0) as H3 by (rewrite Compare_antisym; lia).
    pose proof (Compare_eq_l _ _ a H3) as H4.
    rewrite (Compare_antisym a c), (Compare_antisym a b) in H4. lia.
  - rewrite (Compare_gt_trans _ _ _ H1 H2). lia.
Qed.

(** * Further properties of the compatibility check *)

Lemma isProviderCompatible_true a b :
  version.isProviderCompatible a b = (true, None) ↔
  ∃ va vb, semver.Make a = semver.ok va ∧ semver.Make b = semver.ok vb
           ∧ semver.Compare va vb >= 0.
Proof.
  unfold version.isProviderCompatible. split.
  - destruct (semver.Make a) as [va|]; [|done].
    destruct (semver.Make b) as [vb|]; [|done].
    intros [= H]. exists va, vb. repeat split. apply Z.geb_le in H. lia.
  - intros (va & vb & -> & -> & H). f_equal. apply Z.geb_le. lia.
Qed.

(** X8: the comparison of two version strings is a total preorder on
    the valid ones: a version is compatible with itself, of two versions
    one is compatible with the other, and a version that is compatible
    with a second one is compatible with every minimum the second one is
    compatible with. *)
Theorem isProviderCompatible_preorder :
  (∀ a, version.isValidSemver a = None →
        version.isProviderCompatible a a = (true, None))
  ∧ (∀ a b, version.isValidSemver a = None → version.isValidSemver b = None →
            version.isProviderCompatible a b = (true, None)
            ∨ version.isProviderCompatible b a = (true, None))
  ∧ (∀ a b c, version.isProviderCompatible a b = (true, None) →
              version.isProviderCompatible b c = (true, None) →
              version.isProviderCompatible a c = (true, None)).
Proof.
  unfold version.isValidSemver. split; [|split].
  - intros a Ha. destruct (semver.Make a) as [va|] eqn:E; [|done].
    apply isProviderCompatible_true. exists va, va.
    rewrite Compare_refl. by repeat split.
  - intros a b Ha Hb.
    destruct (semver.Make a) as [va|] eqn:Ea; [|done].
    destruct (semver.Make b) as [vb|] eqn:Eb; [|done].
    rewrite !isProviderCompatible_true.
    destruct (Z_le_gt_dec 0 (semver.Compare va vb)) as [H|H].
    + left. exists va, vb. repeat split; [done..|lia].
    + right. exists vb, va. repeat split; [done..|].
      rewrite Compare_antisym. lia.
  - intros a b c (va & vb & Ha & Hb & Hab)%isProviderCompatible_true
      (vb' & vc & Hb' & Hc & Hbc)%isProviderCompatible_true.
    rewrite Hb in Hb'. injection Hb' as <-.
    apply isProviderCompatible_true. exists va, vc. repeat split; [done..|].
    by eapply Compare_ge_trans.
Qed.

Lemma isProviderCompatible_preorder_witness :
  version.isProviderCompatible "2.0.0" "1.5.0-rc.1" = (true, None)
  ∧ version.isProviderCompatible "1.5.0-rc.1" "1.4.9" = (true, None)
  ∧ version.isProviderCompatible "2.0.0" "1.4.9" = (true, None).
Proof.
  assert (version.isProviderCompatible "2.0.0" "1.5.0-rc.1" = (true, None))
    as H1 by (by vm_compute).
  assert (version.isProviderCompatible "1.5.0-rc.1" "1.4.9" = (true, None))
    as H2 by (by vm_compute).
  split; [exact H1|]. split; [exact H2|].
  exact (proj2 (proj2 isProviderCompatible_preorder) _ _ _ H1 H2).
Defined.

(** X9: normalization widens what is accepted by one case only: the
    normalized string is a valid version exactly when the string is one
    or is the letter [v] followed by one. *)
Theorem normalized_valid_iff (s : string) :
  version.isValidSemver (version.normalizeVersion s) = None ↔
  version.isValidSemver s = None
  ∨ ∃ t, s = String "v" t ∧ version.isValidSemver t = None.
Proof.
  destruct s as [|c s].
  { split; [by left|]. by intros [?|(t & ? & _)]. }
  destruct (decide (c = "v"%char)) as [->|Hc].
  - change (version.normalizeVersion (String "v" s)) with s. split.
    + intros H. right. by exists s.
    + intros [H|(t & [= ->] & H)]; [|done].
      unfold version.isValidSemver in H.
      destruct (Make_leading_v s) as [err Herr]. by rewrite Herr in H.
  - assert (version.normalizeVersion (String c s) = String c s) as ->.
    { unfold version.normalizeVersion, strings.TrimPrefix. cbn.
      by rewrite decide_False. }
    split; [by left|]. intros [H|(t & [= -> _] & _)]; done.
Qed.

Section FurtherCompatibility.

Context {context : Type}.
Variable Run : context → string → list string → version.ran.
Variable decode : string → version.decoded.

Abbreviation getProviderVersion := (version.getProviderVersion Run decode).
Abbreviation IsProviderCompatible := (version.IsProviderCompatible Run decode).

(** X10: an error comes with the verdict [false], never with [true];
    it is the error of the run, the error of the decoding, or the error
    of the version parser as it is, and no error of the registry. *)
Theorem check_error_means_false
    (ctx : context) (provider minProviderVersion : string)
    (verdict : bool) (err : version.error) :
  IsProviderCompatible ctx provider minProviderVersion = (verdict, Some err) →
  verdict = false
  ∧ ((∃ e, err = version.ErrRun provider e
                   (version.stderr (Run ctx provider ["--version"])))
     ∨ (∃ e, err = version.ErrUnmarshal e)
     ∨ (∃ e, err = version.Semver e)).
Proof.
  unfold version.IsProviderCompatible, version.getProviderVersion,
    version.Unmarshal, version.isProviderCompatible.
  destruct (version.runErr (Run ctx provider ["--version"])) as [e|].
  { intros [= <- <-]. split; [done|]. left. by exists e. }
  destruct (decode (version.stdout (Run ctx provider ["--version"])))
    as [e|d].
  { intros [= <- <-]. split; [done|]. right. left. by exists e. }
  cbn.
  destruct (semver.Make _) as [va|e].
  - destruct (semver.Make _) as [vb|e]; [done|].
    intros [= <- <-]. split; [done|]. right. right. by exists e.
  - intros [= <- <-]. split; [done|]. right. right. by exists e.
Qed.

(** X11: a version taken from a map that the registry returned is
    always fit to be the minimum of a check: when the probe gives a
    version that is valid once normalized, the check returns a verdict
    and no error, and the verdict compares the probed version with the
    version of the map as it is stored. *)
Theorem registry_minimum_usable
    (s : string) (m : gmap string string) (oerr : option version.error)
    (name minimum : string)
    (ctx : context) (provider curr : string) (currV : semver.Version) :
  version.GetMinimumProviderVersions s = (m, oerr) →
  m !! name = Some minimum →
  getProviderVersion ctx provider = (curr, None) →
  semver.Make (version.normalizeVersion curr) = semver.ok currV →
  ∃ minV,
    semver.Make minimum = semver.ok minV
    ∧ IsProviderCompatible ctx provider minimum
      = (semver.Compare currV minV >=? 0, None).
Proof.
  intros (l1 & l2 & _ & Hl1)%registry_map_prefix Hm Hprobe Hcurr.
  destruct (entries_lookup_inv _ _ _ _ _ Hl1 Hm) as [H0|(p & Hp & Hf)].
  { by rewrite lookup_empty in H0. }
  apply entries_success in Hl1 as (Hall & _).
  rewrite Forall_forall in Hall.
  destruct (Hall _ Hp) as (k & v & Hf' & _ & Hv).
  rewrite Hf in Hf'. injection Hf' as <- <-.
  pose proof (normalizeVersion_valid _ Hv) as Hnorm.
  unfold version.isValidSemver in Hv.
  destruct (semver.Make minimum) as [minV|] eqn:Hmin; [|done].
  exists minV. split; [done|].
  unfold version.IsProviderCompatible. rewrite Hprobe, Hnorm.
  by apply isProviderCompatible_ok.
Qed.

(** X13: of the report of the provider only the [version] member
    counts: two decodings of the output that agree on it give the same
    result, whatever they say of [buildDate] and [minDriverVersion]. *)
Theorem report_other_members_ignored
    (decode' : string → version.decoded)
    (ctx : context) (provider minProviderVersion : string)
    (d d' : version.document) :
  decode (version.stdout (Run ctx provider ["--version"])) = version.Object d →
  decode' (version.stdout (Run ctx provider ["--version"])) = version.Object d' →
  version.docVersion d = version.docVersion d' →
  version.getProviderVersion Run decode' ctx provider
  = getProviderVersion ctx provider
  ∧ version.IsProviderCompatible Run decode' ctx provider minProviderVersion
    = IsProviderCompatible ctx provider minProviderVersion.
Proof.
  intros Hd Hd' Hv.
  assert (version.getProviderVersion Run decode' ctx provider
          = getProviderVersion ctx provider) as Hprobe.
  { unfold version.getProviderVersion, version.Unmarshal.
    destruct (version.runErr (Run ctx provider ["--version"])); [done|].
    rewrite Hd, Hd'. cbn. by rewrite Hv. }
  split; [done|]. unfold version.IsProviderCompatible. by rewrite Hprobe.
Qed.

End FurtherCompatibility.

Lemma check_error_means_false_witness :
  false = false
  ∧ ((∃ e, version.Semver semver.ErrEmptyVersion
           = version.ErrRun "provider-empty" e
               (version.stderr (sampleRun () "provider-empty" ["--version"])))
     ∨ (∃ e, version.Semver semver.ErrEmptyVersion = version.ErrUnmarshal e)
     ∨ (∃ e, version.Semver semver.ErrEmptyVersion = version.Semver e)).
Proof.
  apply (check_error_means_false sampleRun sampleDecode () "provider-empty"
           "1.0.0").
  by vm_compute.
Defined.

Lemma registry_minimum_usable_witness :
  ∃ minV,
    semver.Make "1.0.0" = semver.ok minV
    ∧ version.IsProviderCompatible sampleRun sampleDecode () "provider-vault"
        "1.0.0"
      = (semver.Compare v1_2_0 minV >=? 0, None).
Proof.
  apply (registry_minimum_usable sampleRun sampleDecode "vault=1.0.0"
           {[ "vault" := "1.0.0" ]} None "vault" "1.0.0" () "provider-vault"
           "v1.2.0" v1_2_0).
  - by vm_compute.
  - apply lookup_singleton_eq.
  - by vm_compute.
  - by vm_compute.
Defined.

Lemma report_other_members_ignored_witness :
  version.getProviderVersion sampleRun
    (λ _, version.Object
            {| version.docVersion := Some "v1.2.0";
               version.docBuildDate := None;
               version.docMinDriverVersion := Some "v0.0.9" |})
    () "provider-vault"
  = version.getProviderVersion sampleRun sampleDecode () "provider-vault"
  ∧ version.IsProviderCompatible sampleRun
      (λ _, version.Object
              {| version.docVersion := Some "v1.2.0";
                 version.docBuildDate := None;
                 version.docMinDriverVersion := Some "v0.0.9" |})
      () "provider-vault" "1.0.0"
    = version.IsProviderCompatible sampleRun sampleDecode () "provider-vault"
        "1.0.0".
Proof.
  apply (report_other_members_ignored sampleRun sampleDecode _ ()
           "provider-vault" "1.0.0"
           {| version.docVersion := Some "v1.2.0";
              version.docBuildDate := Some "2020-05-01";
              version.docMinDriverVersion := None |}
           {| version.docVersion := Some "v1.2.0";
              version.docBuildDate := None;
              version.docMinDriverVersion := Some "v0.0.9" |});
    by vm_compute.
Defined.

(** * Further properties of trimming *)

Ltac nat_bool :=
  repeat match goal with
         | H : _ && _ = true |- _ => apply andb_true_iff in H as [? ?]
         | H : _ || _ = true |- _ => apply orb_true_iff in H as [?|?]
         | H : (_ =? _)%nat = true |- _ => apply Nat.eqb_eq in H
         | H : (_ <=? _)%nat = true |- _ => apply Nat.leb_le in H
         | H : (_ <? _)%nat = true |- _ => apply Nat.ltb_lt in H
         end.

Lemma space2_runes c0 c1 :
  strings.space2 c0 c1 = true → runeStart c1 = false.
Proof.
  unfold strings.space2, runeStart. intros H. nat_bool;
    (apply orb_false_iff; split; [apply Nat.ltb_ge|apply Nat.leb_gt]; lia).
Qed.

Lemma space3_runes c0 c1 c2 :
  strings.space3 c0 c1 c2 = true → runeStart c1 = false ∧ runeStart c2 = false.
Proof.
  unfold strings.space3, runeStart. intros H. nat_bool;
    (split; apply orb_false_iff; split;
     [apply Nat.ltb_ge|apply Nat.leb_gt|apply Nat.ltb_ge|apply Nat.leb_gt]; lia).
Qed.

Lemma asciiSpace_runeStart c : strings.asciiSpace c = true → runeStart c = true.
Proof.
  unfold strings.asciiSpace, runeStart. intros H. apply orb_true_iff. left.
  apply Nat.ltb_lt. nat_bool; lia.
Qed.

Lemma space2_start c0 c1 : strings.space2 c0 c1 = true → runeStart c0 = true.
Proof.
  unfold strings.space2, runeStart. intros H. apply orb_true_iff. right.
  apply Nat.leb_le. nat_bool; lia.
Qed.

Lemma space3_start c0 c1 c2 :
  strings.space3 c0 c1 c2 = true → runeStart c0 = true.
Proof.
  unfold strings.space3, runeStart. intros H. apply orb_true_iff. right.
  apply Nat.leb_le. nat_bool; lia.
Qed.

(** White space starts with a byte that starts a rune. *)
Lemma onlySpace_startsRune s : strings.onlySpace s = true → startsRune s = true.
Proof.
  unfold strings.onlySpace. destruct s as [|c0 s0]; [done|]. cbn.
  destruct (strings.asciiSpace c0) eqn:E0; [intros _; by apply asciiSpace_runeStart|].
  destruct s0 as [|c1 s1]; [done|].
  destruct (strings.space2 c0 c1) eqn:E1; [intros _; by eapply space2_start|].
  destruct s1 as [|c2 s2]; [done|].
  destruct (strings.space3 c0 c1 c2) eqn:E2; [intros _; by eapply space3_start|].
  done.
Qed.

(** White space in front of a string is trimmed with the white space of
    the string. *)
Lemma TrimLeftSpace_app_space_bounded n x y :
  (String.length x < n)%nat → strings.onlySpace x = true →
  strings.TrimLeftSpace (x +:+ y) = strings.TrimLeftSpace y.
Proof.
  unfold strings.onlySpace.
  revert x. induction n as [|n IH]; intros x Hn; [lia|].
  destruct x as [|c0 x0]; [done|].
  change (String c0 x0 +:+ y) with (String c0 (x0 +:+ y)).
  cbn [strings.TrimLeftSpace].
  destruct (strings.asciiSpace c0) eqn:E0.
  { apply IH. cbn in Hn. lia. }
  destruct x0 as [|c1 x1]; [done|].
  change (String c1 x1 +:+ y) with (String c1 (x1 +:+ y)). cbv beta iota.
  destruct (strings.space2 c0 c1) eqn:E1.
  { apply IH. cbn in Hn. lia. }
  destruct x1 as [|c2 x2]; [done|].
  change (String c2 x2 +:+ y) with (String c2 (x2 +:+ y)). cbv beta iota.
  destruct (strings.space3 c0 c1 c2) eqn:E2; [|done].
  apply IH. cbn in Hn. lia.
Qed.

Lemma TrimLeftSpace_app_space x y :
  strings.onlySpace x = true →
  strings.TrimLeftSpace (x +:+ y) = strings.TrimLeftSpace y.
Proof. apply (TrimLeftSpace_app_space_bounded (S (String.length x))). lia. Qed.

(** What follows a string that is not white space only is not trimmed
    with it, when it starts a rune. *)
Lemma TrimLeftSpace_app_rune_bounded n x y :
  (String.length x < n)%nat → strings.onlySpace x = false →
  startsRune y = true →
  strings.TrimLeftSpace (x +:+ y) = strings.TrimLeftSpace x +:+ y.
Proof.
  unfold strings.onlySpace.
  revert x. induction n as [|n IH]; intros x Hn Hx Hy; [lia|].
  destruct x as [|c0 x0]; [done|].
  change (String c0 x0 +:+ y) with (String c0 (x0 +:+ y)).
  cbn [strings.TrimLeftSpace] in Hx |- *.
  destruct (strings.asciiSpace c0) eqn:E0.
  { apply IH; [cbn in Hn; lia|done..]. }
  destruct x0 as [|c1 x1].
  { change ("" +:+ y) with y. destruct y as [|c1 y1]; [done|]. cbv beta iota.
    destruct (strings.space2 c0 c1) eqn:E1.
    { apply space2_runes in E1. cbn in Hy. congruence. }
    destruct y1 as [|c2 y2]; [done|]. cbv beta iota.
    destruct (strings.space3 c0 c1 c2) eqn:E2; [|done].
    apply space3_runes in E2 as [E2 _]. cbn in Hy. congruence. }
  change (String c1 x1 +:+ y) with (String c1 (x1 +:+ y)). cbv beta iota.
  destruct (strings.space2 c0 c1) eqn:E1.
  { apply IH; [cbn in Hn; lia|done..]. }
  destruct x1 as [|c2 x2].
  { change ("" +:+ y) with y. destruct y as [|c2 y2]; [done|]. cbv beta iota.
    destruct (strings.space3 c0 c1 c2) eqn:E2; [|done].
    apply space3_runes in E2 as [_ E2]. cbn in Hy. congruence. }
  change (String c2 x2 +:+ y) with (String c2 (x2 +:+ y)). cbv beta iota.
  destruct (strings.space3 c0 c1 c2) eqn:E2; [|done].
  apply IH; [cbn in Hn; lia|done..].
Qed.

Lemma TrimLeftSpace_app_rune x y :
  strings.onlySpace x = false → startsRune y = true →
  strings.TrimLeftSpace (x +:+ y) = strings.TrimLeftSpace x +:+ y.
Proof. apply (TrimLeftSpace_app_rune_bounded (S (String.length x))). lia. Qed.

(** White space after a string does not change whether the string is
    white space only. *)
Lemma onlySpace_app_space u post :
  strings.onlySpace post = true →
  strings.onlySpace (u +:+ post) = strings.onlySpace u.
Proof.
  intros Hpost. destruct (strings.onlySpace u) eqn:Hu.
  - unfold strings.onlySpace. rewrite (TrimLeftSpace_app_space _ _ Hu).
    exact Hpost.
  - unfold strings.onlySpace.
    rewrite (TrimLeftSpace_app_rune _ _ Hu (onlySpace_startsRune _ Hpost)).
    unfold strings.onlySpace in Hu.
    by destruct (strings.TrimLeftSpace u).
Qed.

Lemma TrimRightSpace_onlySpace s :
  strings.onlySpace s = true → strings.TrimRightSpace s = "".
Proof. destruct s as [|c s]; [done|]. cbn [strings.TrimRightSpace]. by intros ->. Qed.

Lemma TrimRightSpace_app_space t post :
  strings.onlySpace post = true →
  strings.TrimRightSpace (t +:+ post) = strings.TrimRightSpace t.
Proof.
  intros Hpost. induction t as [|c t IH].
  - by apply TrimRightSpace_onlySpace.
  - change (String c t +:+ post) with (String c (t +:+ post)).
    cbn [strings.TrimRightSpace].
    change (String c (t +:+ post)) with (String c t +:+ post).
    rewrite (onlySpace_app_space _ _ Hpost), IH. done.
Qed.

(** White space around a string is trimmed with the white space of the
    string. *)
Lemma TrimSpace_app_space pre s post :
  strings.onlySpace pre = true → strings.onlySpace post = true →
  strings.TrimSpace (pre +:+ s +:+ post) = strings.TrimSpace s.
Proof.
  intros Hpre Hpost. unfold strings.TrimSpace.
  rewrite (TrimLeftSpace_app_space _ _ Hpre).
  destruct (strings.onlySpace s) eqn:Hs.
  - rewrite (TrimLeftSpace_app_space _ _ Hs).
    unfold strings.onlySpace in Hpost, Hs.
    destruct (strings.TrimLeftSpace post); [|done].
    by destruct (strings.TrimLeftSpace s).
  - rewrite (TrimLeftSpace_app_rune _ _ Hs (onlySpace_startsRune _ Hpost)).
    by apply TrimRightSpace_app_space.
Qed.

Lemma length_app_string (a b : string) :
  String.length (a +:+ b) = (String.length a + String.length b)%nat.
Proof.
  induction a as [|c a IH]; [done|].
  change (String c a +:+ b) with (String c (a +:+ b)). cbn. by rewrite IH.
Qed.

Lemma TrimLeftSpace_idem_bounded n s :
  (String.length s < n)%nat →
  strings.TrimLeftSpace (strings.TrimLeftSpace s) = strings.TrimLeftSpace s.
Proof.
  revert s. induction n as [|n IH]; intros s Hn; [lia|].
  destruct s as [|c0 s0]; [done|]. cbn [strings.TrimLeftSpace].
  destruct (strings.asciiSpace c0) eqn:E0.
  { apply IH. cbn in Hn. lia. }
  destruct s0 as [|c1 s1].
  { cbn. by rewrite E0. }
  destruct (strings.space2 c0 c1) eqn:E1.
  { apply IH. cbn in Hn. lia. }
  destruct s1 as [|c2 s2].
  { cbn. by rewrite E0, E1. }
  destruct (strings.space3 c0 c1 c2) eqn:E2.
  { apply IH. cbn in Hn. lia. }
  cbn. by rewrite E0, E1, E2.
Qed.

Lemma TrimLeftSpace_idem s :
  strings.TrimLeftSpace (strings.TrimLeftSpace s) = strings.TrimLeftSpace s.
Proof. apply (TrimLeftSpace_idem_bounded (S (String.length s))). lia. Qed.

(** What trimming on the right drops is white space. *)
Lemma TrimRightSpace_post s :
  ∃ post, s = strings.TrimRightSpace s +:+ post
          ∧ strings.onlySpace post = true.
Proof.
  induction s as [|c s (post & Hs & Hpost)]; [by exists ""|].
  cbn [strings.TrimRightSpace].
  destruct (strings.onlySpace (String c s)) eqn:E.
  - by exists (String c s).
  - exists post. split; [|done].
    change (String c ?a +:+ post) with (String c (a +:+ post)). by f_equal.
Qed.

Lemma TrimRightSpace_idem s :
  strings.TrimRightSpace (strings.TrimRightSpace s) = strings.TrimRightSpace s.
Proof.
  induction s as [|c s IH]; [done|]. cbn [strings.TrimRightSpace].
  destruct (strings.onlySpace (String c s)) eqn:E; [done|].
  cbn [strings.TrimRightSpace]. rewrite IH.
  destruct (TrimRightSpace_post s) as (post & Hs & Hpost).
  assert (strings.onlySpace (String c (strings.TrimRightSpace s)) = false)
    as ->; [|done].
  rewrite <- E. rewrite Hs at 2.
  change (String c (?a +:+ post)) with (String c a +:+ post).
  by rewrite onlySpace_app_space.
Qed.

(** Trimming on the right keeps a string trimmed on the left. *)
Lemma TrimLeftSpace_TrimRightSpace t :
  strings.TrimLeftSpace t = t →
  strings.TrimLeftSpace (strings.TrimRightSpace t) = strings.TrimRightSpace t.
Proof.
  intros Ht. destruct (TrimRightSpace_post t) as (post & Hu & Hpost).
  set (u := strings.TrimRightSpace t) in *.
  destruct (strings.onlySpace u) eqn:Hou.
  - rewrite Hu, (TrimLeftSpace_app_space _ _ Hou) in Ht.
    unfold strings.onlySpace in Hpost.
    destruct (strings.TrimLeftSpace post); [|done].
    destruct u; [done|]. done.
  - rewrite Hu in Ht at 1.
    rewrite (TrimLeftSpace_app_rune _ _ Hou (onlySpace_startsRune _ Hpost)) in Ht.
    destruct (TrimLeftSpace_decompose u) as (pre & Hpre & _).
    assert (String.length pre = 0%nat) as Hlen.
    { apply (f_equal String.length) in Ht.
      rewrite Hu in Ht. rewrite Hpre in Ht at 2.
      rewrite !length_app_string in Ht. lia. }
    destruct pre; [|done]. by rewrite Hpre at 2.
Qed.

(** Trimming a trimmed string changes nothing. *)
Lemma TrimSpace_idem s :
  strings.TrimSpace (strings.TrimSpace s) = strings.TrimSpace s.
Proof.
  unfold strings.TrimSpace.
  rewrite (TrimLeftSpace_TrimRightSpace _ (TrimLeftSpace_idem s)).
  apply TrimRightSpace_idem.
Qed.

Lemma fields_trimmed p provider version :
  fields p = Some (provider, version) →
  strings.TrimSpace provider = provider ∧ strings.TrimSpace version = version.
Proof.
  unfold fields.
  destruct (strings.Split (strings.TrimSpace p) "=") as [|a [|b [|??]]];
    try done.
  intros [= <- <-]. by rewrite !TrimSpace_idem.
Qed.

(** X14: the keys and the values of the returned map are trimmed: they
    have no white space at either end. *)
Theorem registry_entries_trimmed
    (s : string) (m : gmap string string) (oerr : option version.error)
    (provider version : string) :
  version.GetMinimumProviderVersions s = (m, oerr) →
  m !! provider = Some version →
  strings.TrimSpace provider = provider ∧ strings.TrimSpace version = version.
Proof.
  intros (l1 & l2 & _ & Hl1)%registry_map_prefix Hm.
  destruct (entries_lookup_inv _ _ _ _ _ Hl1 Hm) as [H0|(p & _ & Hf)].
  { by rewrite lookup_empty in H0. }
  by eapply fields_trimmed.
Qed.

Lemma registry_entries_trimmed_witness :
  strings.TrimSpace "vault" = "vault" ∧ strings.TrimSpace "1.0.0" = "1.0.0".
Proof.
  apply (registry_entries_trimmed "  vault = 1.0.0 " {[ "vault" := "1.0.0" ]}
           None).
  - by vm_compute.
  - apply lookup_singleton_eq.
Defined.

Lemma entry_padded m p q : padded p q → version.entry m q = version.entry m p.
Proof.
  intros (pre & post & Hpre & Hpost & ->). unfold version.entry.
  by rewrite (TrimSpace_app_space _ _ _ Hpre Hpost).
Qed.

Lemma entries_padded m l1 l2 :
  Forall2 padded l1 l2 → version.entries m l2 = version.entries m l1.
Proof.
  intros H. revert m. induction H as [|p q l1 l2 Hpq _ IH]; intros m; [done|].
  cbn. rewrite (entry_padded _ _ _ Hpq).
  destruct (version.entry m p) as [m' [e|]]; [done|]. apply IH.
Qed.

(** X15: white space around the pairs does not count: two inputs that
    are not empty and whose pairs differ by white space around them only
    give the same map and the same error, the payload of the error
    included. *)
Theorem registry_padding_ignored (s1 s2 : string) :
  s1 ≠ "" → s2 ≠ "" →
  Forall2 padded (strings.Split s1 ",") (strings.Split s2 ",") →
  version.GetMinimumProviderVersions s2
  = version.GetMinimumProviderVersions s1.
Proof.
  intros H1 H2 Hpad. unfold version.GetMinimumProviderVersions.
  destruct s1; [done|]. destruct s2; [done|]. by apply entries_padded.
Qed.

Lemma registry_padding_ignored_witness :
  version.GetMinimumProviderVersions "  vault=1.0.0 , azure=2.1.3"
  = version.GetMinimumProviderVersions "vault=1.0.0,azure=2.1.3".
Proof.
  apply registry_padding_ignored; [done|done|].
  change (Forall2 padded ["vault=1.0.0"; "azure=2.1.3"]
            ["  vault=1.0.0 "; " azure=2.1.3"]).
  repeat constructor.
  - by exists "  ", " ".
  - by exists " ", "".
Defined.

Lemma onlySpace_with_byte x sep y :
  spaceByte sep = false → strings.onlySpace (x +:+ String sep y) = false.
Proof.
  intros Hsep. destruct (strings.onlySpace _) eqn:E; [|done].
  apply onlySpace_bytes in E. rewrite allBytes_app in E. cbn in E.
  rewrite Hsep in E. by rewrite andb_false_r in E.
Qed.

Lemma Cut_app x sep y :
  strings.Cut x sep = None →
  strings.Cut (x +:+ String sep y) sep = Some (x, y).
Proof.
  induction x as [|c x IH].
  - intros _. change ("" +:+ ?t) with t. cbn. by rewrite decide_True.
  - change (String c x +:+ ?t) with (String c (x +:+ t)). cbn.
    destruct (decide (c = sep)); [done|].
    destruct (strings.Cut x sep) as [[??]|]; [done|]. intros _.
    by rewrite IH.
Qed.

Lemma Cut_None_TrimLeftSpace s sep :
  strings.Cut s sep = None → strings.Cut (strings.TrimLeftSpace s) sep = None.
Proof.
  rewrite !Cut_None. destruct (TrimLeftSpace_decompose s) as (pre & Hs & _).
  rewrite Hs at 1. rewrite allBytes_app. by intros [_ ?]%andb_true_iff.
Qed.

Lemma Cut_None_TrimRightSpace s sep :
  strings.Cut s sep = None → strings.Cut (strings.TrimRightSpace s) sep = None.
Proof.
  rewrite !Cut_None. destruct (TrimRightSpace_decompose s) as (post & Hs & _).
  rewrite Hs at 1. rewrite allBytes_app. by intros [? _]%andb_true_iff.
Qed.

(** The equals sign stops the trimming on either side. *)
Lemma TrimLeftSpace_app_equals a b :
  strings.TrimLeftSpace (a +:+ String "=" b)
  = strings.TrimLeftSpace a +:+ String "=" b.
Proof.
  assert (strings.TrimLeftSpace (String "=" b) = String "=" b) as Heq.
  { cbn. destruct b as [|c1 [|c2 b]]; done. }
  destruct (strings.onlySpace a) eqn:Ha.
  - rewrite (TrimLeftSpace_app_space _ _ Ha), Heq.
    unfold strings.onlySpace in Ha. by destruct (strings.TrimLeftSpace a).
  - by rewrite (TrimLeftSpace_app_rune _ _ Ha).
Qed.

Lemma TrimRightSpace_app_equals x b :
  strings.TrimRightSpace (x +:+ String "=" b)
  = x +:+ String "=" (strings.TrimRightSpace b).
Proof.
  induction x as [|c x IH].
  - change ("" +:+ ?t) with t. cbn [strings.TrimRightSpace].
    assert (strings.onlySpace (String "=" b) = false) as ->; [|done].
    exact (onlySpace_with_byte "" "="%char b eq_refl).
  - change (String c x +:+ ?t) with (String c (x +:+ t)).
    cbn [strings.TrimRightSpace].
    change (String c (x +:+ ?t)) with (String c x +:+ t) at 1.
    by rewrite onlySpace_with_byte, IH.
Qed.

(** Trimming on the left and on the right can be done in either order. *)
Lemma TrimRightSpace_TrimLeftSpace_comm b :
  strings.TrimRightSpace (strings.TrimLeftSpace (strings.TrimRightSpace b))
  = strings.TrimRightSpace (strings.TrimLeftSpace b).
Proof.
  destruct (TrimRightSpace_post b) as (post & Hb & Hpost).
  set (u := strings.TrimRightSpace b) in *.
  rewrite Hb at 1. destruct (strings.onlySpace u) eqn:Hu.
  - rewrite (TrimLeftSpace_app_space _ _ Hu).
    unfold strings.onlySpace in Hu, Hpost.
    destruct (strings.TrimLeftSpace u); [|done].
    by destruct (strings.TrimLeftSpace post).
  - rewrite (TrimLeftSpace_app_rune _ _ Hu (onlySpace_startsRune _ Hpost)).
    by rewrite TrimRightSpace_app_space.
Qed.

(** The fields of a pair with one equals sign are its two sides,
    trimmed. *)
Lemma fields_equals a b :
  strings.Cut a "=" = None → strings.Cut b "=" = None →
  fields (a +:+ "=" +:+ b) = Some (strings.TrimSpace a, strings.TrimSpace b).
Proof.
  intros Ha Hb. change ("=" +:+ b) with (String "=" b).
  unfold fields. unfold strings.TrimSpace at 1.
  rewrite TrimLeftSpace_app_equals, TrimRightSpace_app_equals.
  rewrite (proj2 (Split_two _ _ _ _)
             (conj (Cut_app _ _ _ (Cut_None_TrimLeftSpace _ _ Ha))
                   (Cut_None_TrimRightSpace _ _ Hb))).
  f_equal. f_equal.
  - unfold strings.TrimSpace. by rewrite TrimLeftSpace_idem.
  - unfold strings.TrimSpace. apply TrimRightSpace_TrimLeftSpace_comm.
Qed.

Lemma entry_same_fields m p q :
  fields p = fields q → is_Some (fields p) →
  version.entry m p = version.entry m q.
Proof.
  intros Heq [[k v] Hp]. rewrite (entry_fields _ _ _ _ Hp).
  rewrite Hp in Heq. symmetry in Heq. by rewrite (entry_fields _ _ _ _ Heq).
Qed.

(** X16: white space around the two tokens of a pair does not count.
    For a pair [a=b] with one equals sign, the body of the loop works on
    the trimmed [a] and the trimmed [b]: it gives the same result for
    the pair as for the pair of the two trimmed tokens, and so for any
    pair that differs from it by white space around the tokens. *)
Theorem entry_token_space_ignored
    (m : gmap string string) (a b a' b' : string) :
  strings.Cut a "=" = None → strings.Cut b "=" = None →
  strings.Cut a' "=" = None → strings.Cut b' "=" = None →
  strings.TrimSpace a' = strings.TrimSpace a →
  strings.TrimSpace b' = strings.TrimSpace b →
  fields (a +:+ "=" +:+ b) = Some (strings.TrimSpace a, strings.TrimSpace b)
  ∧ version.entry m (a' +:+ "=" +:+ b') = version.entry m (a +:+ "=" +:+ b).
Proof.
  intros Ha Hb Ha' Hb' Haa Hbb.
  pose proof (fields_equals _ _ Ha Hb) as Hf.
  pose proof (fields_equals _ _ Ha' Hb') as Hf'.
  split; [done|]. apply entry_same_fields; [|by rewrite Hf'].
  by rewrite Hf, Hf', Haa, Hbb.
Qed.

Lemma entry_token_space_ignored_witness :
  fields ("vault " +:+ "=" +:+ " 1.0.0") = Some ("vault", "1.0.0")
  ∧ version.entry ∅ ("vault" +:+ "=" +:+ "1.0.0")
    = version.entry ∅ ("vault " +:+ "=" +:+ " 1.0.0").
Proof.
  apply (entry_token_space_ignored ∅ "vault " " 1.0.0" "vault" "1.0.0");
    reflexivity.
Defined.
